(** * Markdown-to-HTML converter of the OpenRouter client

    A shallow embedding of [OpenRouterClient.simple_markdown_to_html]
    (src/application/openrouter_client.py, lines 213-327) and the
    properties of it stated by the specification.

    Python strings are sequences of Unicode code points; they are modelled
    as lists of code points.  The converter is a [while] loop over the
    lines of the text that threads three variables ([i], [in_code_block],
    [result]); it is modelled by explicit state passing in a small monad
    whose failures are Python's [IndexError] and exhaustion of the fuel
    that bounds the loop. *)

From Stdlib Require Import String Ascii List ZArith NArith Bool Lia.
Import ListNotations.

(* ================================================================== *)
(** * Python strings *)
(* ================================================================== *)

Module Py.

(** A character is a Unicode code point, a [str] a list of them. *)
Definition char := N.
Definition str := list char.

(** ASCII literals of the source are written [lit "..."]. *)
Definition lit (s : string) : str :=
  List.map N_of_ascii (list_ascii_of_string s).

Definition char_eqb (a b : char) : bool := N.eqb a b.

(** The code points used by the source. *)
Definition newline : char := 10%N.   (* '\n' *)
Definition dquote  : char := 34%N.   (* the double quote *)
Definition amp     : char := 38%N.   (* & *)
Definition lparen  : char := 40%N.   (* ( *)
Definition rparen  : char := 41%N.   (* ) *)
Definition star    : char := 42%N.   (* * *)
Definition lt_sign : char := 60%N.   (* < *)
Definition gt_sign : char := 62%N.   (* > *)
Definition lbrack  : char := 91%N.   (* [ *)
Definition rbrack  : char := 93%N.   (* ] *)

(** [len(s)] *)
Definition len {A} (l : list A) : Z := Z.of_nat (List.length l).

(** Truth value of a string: non-empty. *)
Definition truthy (s : str) : bool :=
  match s with [] => false | _ :: _ => true end.

(** [s.startswith(p)] *)
Fixpoint startswith (p s : str) : bool :=
  match p with
  | [] => true
  | a :: p' =>
      match s with
      | [] => false
      | b :: s' => char_eqb a b && startswith p' s'
      end
  end.

(** [s[k:]] for an integer [k]: a negative [k] counts from the end, and the
    start is clipped to the string. *)
Definition slice_from {A} (l : list A) (k : Z) : list A :=
  let start := if (k <? 0)%Z then Z.max 0 (len l + k) else k in
  List.skipn (Z.to_nat start) l.

(** [sub in s] *)
Fixpoint contains (sub s : str) : bool :=
  startswith sub s ||
  match s with
  | [] => false
  | _ :: s' => contains sub s'
  end.

(** [s.find(sub)]: the lowest index where [sub] starts, or [-1]. *)
Fixpoint find (sub s : str) : Z :=
  if startswith sub s then 0%Z
  else match s with
       | [] => (-1)%Z
       | _ :: s' => let r := find sub s' in
                    if (r <? 0)%Z then (-1)%Z else (r + 1)%Z
       end.

(** [str.isspace] for one character: the code points whose bidirectional
    class is WS, B or S or whose category is Zs. *)
Definition isspace (c : char) : bool :=
  ((9 <=? c) && (c <=? 13) || (28 <=? c) && (c <=? 32) ||
   (c =? 133) || (c =? 160) || (c =? 5760) ||
   (8192 <=? c) && (c <=? 8202) || (c =? 8232) || (c =? 8233) ||
   (c =? 8239) || (c =? 8287) || (c =? 12288))%N.

(** [s.strip()] *)
Fixpoint lstrip (s : str) : str :=
  match s with
  | [] => []
  | c :: s' => if isspace c then lstrip s' else s
  end.

Definition rstrip (s : str) : str := List.rev (lstrip (List.rev s)).

Definition strip (s : str) : str := rstrip (lstrip s).

(** [str.isdigit] for one character: the code points whose Numeric_Type
    is Decimal or Digit (Unicode 14, the tables of CPython 3.11), as
    inclusive ranges.  The first range is the ASCII digits. *)
Definition digit_ranges : list (N * N) :=
  [(48, 57); (178, 179); (185, 185); (1632, 1641); (1776, 1785); (1984, 1993);
   (2406, 2415); (2534, 2543); (2662, 2671); (2790, 2799); (2918, 2927);
   (3046, 3055); (3174, 3183); (3302, 3311); (3430, 3439); (3558, 3567);
   (3664, 3673); (3792, 3801); (3872, 3881); (4160, 4169); (4240, 4249);
   (4969, 4977); (6112, 6121); (6160, 6169); (6470, 6479); (6608, 6618);
   (6784, 6793); (6800, 6809); (6992, 7001); (7088, 7097); (7232, 7241);
   (7248, 7257); (8304, 8304); (8308, 8313); (8320, 8329); (9312, 9320);
   (9332, 9340); (9352, 9360); (9450, 9450); (9461, 9469); (9471, 9471);
   (10102, 10110); (10112, 10120); (10122, 10130); (42528, 42537);
   (43216, 43225); (43264, 43273); (43472, 43481); (43504, 43513);
   (43600, 43609); (44016, 44025); (65296, 65305); (66720, 66729);
   (68160, 68163); (68912, 68921); (69216, 69224); (69714, 69722);
   (69734, 69743); (69872, 69881); (69942, 69951); (70096, 70105);
   (70384, 70393); (70736, 70745); (70864, 70873); (71248, 71257);
   (71360, 71369); (71472, 71481); (71904, 71913); (72016, 72025);
   (72784, 72793); (73040, 73049); (73120, 73129); (92768, 92777);
   (92864, 92873); (93008, 93017); (120782, 120831); (123200, 123209);
   (123632, 123641); (125264, 125273); (127232, 127242);
   (130032, 130041)]%N.

Definition isdigit (c : char) : bool :=
  List.existsb (fun r => (fst r <=? c) && (c <=? snd r))%N digit_ranges.

(** [s.replace(old, new)] where [old] is one character (the only way the
    source calls the unbounded form): every occurrence is replaced. *)
Definition replace_chr (old : char) (new s : str) : str :=
  List.flat_map (fun c => if char_eqb c old then new else [c]) s.

(** [s.replace(old, new, 1)]: the leftmost occurrence only. *)
Fixpoint replace_first (old new s : str) : str :=
  if startswith old s then new ++ List.skipn (List.length old) s
  else match s with
       | [] => []
       | c :: s' => c :: replace_first old new s'
       end.

(** [text.split(sep)] where [sep] is one character: the pieces between
    the separators, always at least one piece. *)
Fixpoint split (sep : char) (s : str) : list str :=
  match s with
  | [] => [[]]
  | c :: s' =>
      if char_eqb c sep then [] :: split sep s'
      else match split sep s' with
           | [] => [[c]]
           | piece :: pieces => (c :: piece) :: pieces
           end
  end.

(** [sep.join(pieces)] *)
Fixpoint join (sep : str) (pieces : list str) : str :=
  match pieces with
  | [] => []
  | [p] => p
  | p :: ps => p ++ sep ++ join sep ps
  end.

End Py.

Import Py.

(* ================================================================== *)
(** * Outcomes of a computation *)
(* ================================================================== *)

Inductive exn : Type := IndexError.

Inductive outcome (A : Type) : Type :=
| Return (a : A)
| Raise (e : exn)
| OutOfFuel.

Arguments Return {A} a.
Arguments Raise {A} e.
Arguments OutOfFuel {A}.

Definition bind {A B} (m : outcome A) (k : A -> outcome B) : outcome B :=
  match m with
  | Return a => k a
  | Raise e => Raise e
  | OutOfFuel => OutOfFuel
  end.

Notation "x <- m ;; k" := (bind m (fun x => k))
  (at level 61, m at next level, right associativity).

(** [l[k]] for an integer [k]: a negative index counts from the end, an
    index outside the sequence raises [IndexError]. *)
Definition index {A} (l : list A) (k : Z) : outcome A :=
  let pos := if (k <? 0)%Z then (len l + k)%Z else k in
  if (pos <? 0)%Z then Raise IndexError
  else match List.nth_error l (Z.to_nat pos) with
       | Some a => Return a
       | None => Raise IndexError
       end.

(* ================================================================== *)
(** * The regular-expression substitution of the links *)
(* ================================================================== *)

(** [take_until c s] splits [s] before the first [c]: the longest prefix
    without [c], and what is left. *)
Fixpoint take_until (c : char) (s : str) : str * str :=
  match s with
  | [] => ([], [])
  | x :: s' =>
      if char_eqb x c then ([], s)
      else let (a, b) := take_until c s' in (x :: a, b)
  end.

(** A match of [\[([^\]]+)\]\(([^)]+)\)] at the start of [s]: the two
    groups and what follows the match.  Each group is a greedy run over a
    negated one-character class that must be followed by that very
    character, so the only run that can succeed is the longest one and
    backtracking finds nothing else. *)
Definition match_link (s : str) : option (str * str * str) :=
  match s with
  | [] => None
  | c :: s1 =>
      if char_eqb c lbrack then
        match take_until rbrack s1 with
        | ((_ :: _) as text, _ :: p :: s2) =>
            if char_eqb p lparen then
              match take_until rparen s2 with
              | ((_ :: _) as url, _ :: rest) => Some (text, url, rest)
              | _ => None
              end
            else None
        | _ => None
        end
      else None
  end.

(** The replacement template [<a href="\2">\1</a>]. *)
Definition anchor (text url : str) : str :=
  lit "<a href=" ++ [dquote] ++ url ++ [dquote] ++ lit ">" ++ text ++ lit "</a>".

(** [re.sub(pattern, template, s)]: the matches are searched from left to
    right and do not overlap; the scan resumes after each match.  A match
    is never empty, so [length s] steps are enough. *)
Fixpoint re_sub_links_aux (steps : nat) (s : str) : str :=
  match steps with
  | O => s
  | S steps' =>
      match s with
      | [] => []
      | c :: s' =>
          match match_link s with
          | Some (text, url, rest) => anchor text url ++ re_sub_links_aux steps' rest
          | None => c :: re_sub_links_aux steps' s'
          end
      end
  end.

Definition re_sub_links (s : str) : str := re_sub_links_aux (List.length s) s.

(* ================================================================== *)
(** * The converter *)
(* ================================================================== *)

(** The variables of the loop. *)
Record state : Type := mk_state {
  i : Z;
  in_code_block : bool;
  result : list str
}.

(** [result.append(s)] *)
Definition append (st : state) (s : str) : state :=
  {| i := i st; in_code_block := in_code_block st; result := result st ++ [s] |}.

(** [i += 1] *)
Definition incr (st : state) : state :=
  {| i := (i st + 1)%Z; in_code_block := in_code_block st; result := result st |}.

Definition set_code_block (st : state) (b : bool) : state :=
  {| i := i st; in_code_block := b; result := result st |}.

Definition fence : str := lit "```".

(** ['<pre><code class="language-{0}">'.format(language)] *)
Definition code_open (language : str) : str :=
  lit "<pre><code class=" ++ [dquote] ++ lit "language-" ++ language ++ [dquote] ++ lit ">".

Definition code_close : str := lit "</code></pre>".

(** [line.replace('&', '&amp;').replace('<', '&lt;').replace('>', '&gt;')] *)
Definition escape (line : str) : str :=
  replace_chr gt_sign (lit "&gt;")
    (replace_chr lt_sign (lit "&lt;")
       (replace_chr amp (lit "&amp;") line)).

(** ['<hN>{0}</hN>'.format(text)] *)
Definition heading (level : string) (text : str) : str :=
  lit "<h" ++ lit level ++ lit ">" ++ text ++ lit "</h" ++ lit level ++ lit ">".

(** ['<li>{0}</li>'.format(text)] *)
Definition list_item (text : str) : str := lit "<li>" ++ text ++ lit "</li>".

(** The test of the ordered lists, which the source writes out for the
    line, the previous line and the next one:
    [l.strip() and l[0].isdigit() and l[1:].startswith('. ')]. *)
Definition is_ordered_item (l : str) : outcome bool :=
  if truthy (strip l) then
    c <- index l 0 ;;
    if isdigit c then Return (startswith (lit ". ") (slice_from l 1))
    else Return false
  else Return false.

Definition is_unordered_item (l : str) : bool := startswith (lit "- ") l.

(** The two bold and the two italic replacements. *)
Definition format_emphasis (line : str) : str :=
  let formatted_line := replace_first (lit "**") (lit "<strong>") line in
  let formatted_line := replace_first (lit "**") (lit "</strong>") formatted_line in
  let formatted_line := replace_first (lit "*") (lit "<em>") formatted_line in
  replace_first (lit "*") (lit "</em>") formatted_line.

Definition block_tags : list str :=
  [lit "<h1>"; lit "<h2>"; lit "<h3>"; lit "<h4>"; lit "<ul>"; lit "<ol>"; lit "<li>"].

(** [any(tag in formatted_line for tag in [...])] *)
Definition has_block_tag (formatted_line : str) : bool :=
  List.existsb (fun tag => contains tag formatted_line) block_tags.

(** The [else] branch: regular text with inline formatting. *)
Definition regular_text (st : state) (line : str) : state :=
  let formatted_line := re_sub_links (format_emphasis line) in
  if negb (truthy (strip line)) then append st (lit "<br>")
  else if negb (has_block_tag formatted_line)
       then append st (lit "<p>" ++ formatted_line ++ lit "</p>")
       else append st formatted_line.

(** The branch of the unordered lists. *)
Definition unordered_item (lines : list str) (st : state) (line : str) : outcome state :=
  starts <- (if (i st =? 0)%Z then Return true
             else prev <- index lines (i st - 1) ;;
                  Return (negb (is_unordered_item prev))) ;;
  let st := if starts : bool then append st (lit "<ul>") else st in
  let st := append st (list_item (slice_from line 2)) in
  ends <- (if (i st =? len lines - 1)%Z then Return true
           else next <- index lines (i st + 1) ;;
                Return (negb (is_unordered_item next))) ;;
  Return (if ends : bool then append st (lit "</ul>") else st).

(** The branch of the ordered lists. *)
Definition ordered_item (lines : list str) (st : state) (line : str) : outcome state :=
  starts <- (if (i st =? 0)%Z then Return true
             else prev <- index lines (i st - 1) ;;
                  ord <- is_ordered_item prev ;;
                  Return (negb ord)) ;;
  let st := if starts : bool then append st (lit "<ol>") else st in
  let st := append st (list_item (slice_from line (find (lit ".") line + 2))) in
  ends <- (if (i st =? len lines - 1)%Z then Return true
           else next <- index lines (i st + 1) ;;
                ord <- is_ordered_item next ;;
                Return (negb ord)) ;;
  Return (if ends : bool then append st (lit "</ol>") else st).

(** One pass through the body of the loop. *)
Definition loop_body (lines : list str) (st : state) : outcome state :=
  line <- index lines (i st) ;;
  if startswith fence line then
    if negb (in_code_block st) then
      let language := strip (slice_from line 3) in
      Return (incr (set_code_block (append st (code_open language)) true))
    else
      Return (incr (set_code_block (append st code_close) false))
  else if in_code_block st then
    Return (incr (append st (escape line)))
  else
    st' <- (if startswith (lit "# ") line then
              Return (append st (heading "1" (slice_from line 2)))
            else if startswith (lit "## ") line then
              Return (append st (heading "2" (slice_from line 3)))
            else if startswith (lit "### ") line then
              Return (append st (heading "3" (slice_from line 4)))
            else if startswith (lit "#### ") line then
              Return (append st (heading "4" (slice_from line 5)))
            else if is_unordered_item line then
              unordered_item lines st line
            else
              ord <- is_ordered_item line ;;
              if ord : bool then ordered_item lines st line
              else Return (regular_text st line)) ;;
    Return (incr st').

(** [while i < len(lines): ...] *)
Fixpoint while_loop (fuel : nat) (lines : list str) (st : state) : outcome state :=
  match fuel with
  | O => OutOfFuel
  | S fuel' =>
      if (i st <? len lines)%Z then
        st' <- loop_body lines st ;;
        while_loop fuel' lines st'
      else Return st
  end.

Definition initial_state : state :=
  {| i := 0%Z; in_code_block := false; result := [] |}.

(** The closing of a code block left open, after the loop. *)
Definition close_unclosed (st : state) : state :=
  if in_code_block st then append st code_close else st.

(** The variables when the function returns, for the lines of a text. *)
Definition convert_lines (fuel : nat) (lines : list str) : outcome state :=
  st <- while_loop fuel lines initial_state ;;
  Return (close_unclosed st).

Definition final_state (fuel : nat) (text : str) : outcome state :=
  convert_lines fuel (split newline text).

Definition simple_markdown_to_html (fuel : nat) (text : str) : outcome str :=
  st <- final_state fuel text ;;
  Return (join [newline] (result st)).

(** Fuel that is enough for a text: one more than its number of lines. *)
Definition fuel_for (text : str) : nat := S (List.length (split newline text)).

(** The state after [n] passes through the body of the loop. *)
Fixpoint iterate (n : nat) (lines : list str) (st : state) : outcome state :=
  match n with
  | O => Return st
  | S n' => st' <- loop_body lines st ;; iterate n' lines st'
  end.

(* ------------------------------------------------------------------ *)
(** ** What one pass does, as a function of the line and its neighbours *)

(** The shape that [is_ordered_item] accepts. *)
Definition ordered_shape (l : str) : bool :=
  match l with
  | [] => false
  | d :: r => isdigit d && startswith (lit ". ") r
  end.

Definition holds (test : str -> bool) (neighbour : option str) : bool :=
  match neighbour with
  | Some l => test l
  | None => false
  end.

(** The fragment of a line of regular text. *)
Definition regular_fragment (line : str) : str :=
  let formatted_line := re_sub_links (format_emphasis line) in
  if truthy (strip line) then
    if has_block_tag formatted_line then formatted_line
    else lit "<p>" ++ formatted_line ++ lit "</p>"
  else lit "<br>".

(** The fragments of a line outside a code block; [prev] and [next] are
    the neighbours of the line, [None] at the ends of the document. *)
Definition block_output (prev : option str) (line : str) (next : option str) : list str :=
  if startswith (lit "# ") line then [heading "1" (slice_from line 2)]
  else if startswith (lit "## ") line then [heading "2" (slice_from line 3)]
  else if startswith (lit "### ") line then [heading "3" (slice_from line 4)]
  else if startswith (lit "#### ") line then [heading "4" (slice_from line 5)]
  else if is_unordered_item line then
    (if holds is_unordered_item prev then [] else [lit "<ul>"]) ++
    [list_item (slice_from line 2)] ++
    (if holds is_unordered_item next then [] else [lit "</ul>"])
  else if ordered_shape line then
    (if holds ordered_shape prev then [] else [lit "<ol>"]) ++
    [list_item (slice_from line (find (lit ".") line + 2))] ++
    (if holds ordered_shape next then [] else [lit "</ol>"])
  else [regular_fragment line].

(** The fragments of a line and the flag after it. *)
Definition line_output (prev : option str) (line : str) (next : option str)
    (in_code : bool) : list str * bool :=
  if startswith fence line then
    if in_code then ([code_close], false)
    else ([code_open (strip (slice_from line 3))], true)
  else if in_code then ([escape line], true)
  else (block_output prev line next, false).

Definition prev_line (lines : list str) (k : nat) : option str :=
  match k with
  | O => None
  | S k' => List.nth_error lines k'
  end.

Definition next_line (lines : list str) (k : nat) : option str :=
  List.nth_error lines (S k).

(* ------------------------------------------------------------------ *)
(** ** What the loop does on a stretch of consecutive lines *)

Definition last_line (ls : list str) : option str :=
  match List.rev ls with
  | [] => None
  | l :: _ => Some l
  end.

(** The fragments of the consecutive lines [ls] and the flag after them;
    [prev] is the line before the stretch and [after] the line that
    follows it, [None] at the ends of the document. *)
Fixpoint render (prev : option str) (ls : list str) (after : option str)
    (in_code : bool) : list str * bool :=
  match ls with
  | [] => ([], in_code)
  | l :: ls' =>
      let next := match ls' with [] => after | n :: _ => Some n end in
      let out := line_output prev l next in_code in
      let outs := render (Some l) ls' after (snd out) in
      (fst out ++ fst outs, snd outs)
  end.

(* ------------------------------------------------------------------ *)
(** ** Vocabulary of the statements *)

(** A line that is not a fence delimiter, a header or an unordered item:
    met outside a code block it reaches the test of the ordered lists. *)
Definition reaches_ordered_test (line : str) : bool :=
  negb (startswith fence line) &&
  negb (startswith (lit "# ") line) &&
  negb (startswith (lit "## ") line) &&
  negb (startswith (lit "### ") line) &&
  negb (startswith (lit "#### ") line) &&
  negb (is_unordered_item line).

(** A line that reaches the [else] branch when it is met outside a code
    block: none of the tests before it holds. *)
Definition is_regular (line : str) : bool :=
  reaches_ordered_test line && negb (ordered_shape line).

(** [c] does not occur in [s]. *)
Definition no_char (c : char) (s : str) : bool :=
  List.forallb (fun x => negb (char_eqb x c)) s.

(** The number of places of [s] where [w] starts. *)
Fixpoint count_sub (w s : str) : nat :=
  (if startswith w s then 1 else 0) +
  match s with
  | [] => 0
  | _ :: s' => count_sub w s'
  end.

(** The paragraph around a formatted line, unless it holds a block tag. *)
Definition wrap_paragraph (formatted_line : str) : str :=
  if has_block_tag formatted_line then formatted_line
  else lit "<p>" ++ formatted_line ++ lit "</p>".


(** The escaping of one character. *)
Definition escape_char (c : char) : str :=
  if char_eqb c amp then lit "&amp;"
  else if char_eqb c lt_sign then lit "&lt;"
  else if char_eqb c gt_sign then lit "&gt;"
  else [c].

(** A header marker: [n] characters [#]. *)
Definition hashes (n : nat) : str := List.repeat 35%N n.

Definition heading_level (n : nat) : string :=
  match n with
  | 1%nat => "1"%string
  | 2%nat => "2"%string
  | 3%nat => "3"%string
  | _ => "4"%string
  end.

(** An ASCII digit, [0] to [9]. *)
Definition is_ascii_digit (c : char) : bool := ((48 <=? c) && (c <=? 57))%N.

(** The ordered-list test as the specification words it: an ASCII digit,
    then a dot and a space. *)
Definition ascii_ordered_shape (l : str) : bool :=
  match l with
  | [] => false
  | d :: r => is_ascii_digit d && startswith (lit ". ") r
  end.

(** The fragments of a list item between its neighbours. *)
Definition ordered_fragments (prev : option str) (text : str) (next : option str) : list str :=
  (if holds ordered_shape prev then [] else [lit "<ol>"]) ++
  [list_item text] ++
  (if holds ordered_shape next then [] else [lit "</ol>"]).


(** A link as the text writes it, [[text](url)]. *)
Definition link_source (text url : str) : str :=
  [lbrack] ++ text ++ [rbrack; lparen] ++ url ++ [rparen].

(** The two groups of a link: not empty, no []] in the text and no [)] in
    the address. *)
Definition link_groups (text url : str) : bool :=
  truthy text && no_char rbrack text && truthy url && no_char rparen url.

(** A line made of links, each after a stretch of text without [[], and of
    what follows the last link. *)
Fixpoint with_links (segments : list (str * str * str)) (rest : str) : str :=
  match segments with
  | [] => rest
  | (before, text, url) :: segments' =>
      before ++ link_source text url ++ with_links segments' rest
  end.

Fixpoint with_anchors (segments : list (str * str * str)) (rest : str) : str :=
  match segments with
  | [] => rest
  | (before, text, url) :: segments' =>
      before ++ anchor text url ++ with_anchors segments' rest
  end.

Definition segment_ok (segment : str * str * str) : bool :=
  let '(before, text, url) := segment in
  no_char lbrack before && link_groups text url.

(** No match of the pattern starts at a character of [before] in the
    string [before ++ following]. *)
Fixpoint no_link_start (before following : str) : bool :=
  match before with
  | [] => true
  | _ :: before' =>
      match match_link (before ++ following) with
      | Some _ => false
      | None => no_link_start before' following
      end
  end.

(** The segments are the matches that the scan finds in
    [with_links segments rest]: each link has its two groups, and no
    match starts in the text before it (which may hold any character,
    [[] included). *)
Fixpoint links_found (segments : list (str * str * str)) (rest : str) : bool :=
  match segments with
  | [] => true
  | (before, text, url) :: segments' =>
      no_link_start before (link_source text url ++ with_links segments' rest) &&
      link_groups text url &&
      links_found segments' rest
  end.


(* ------------------------------------------------------------------ *)
(** ** Runs of list items *)

Inductive list_kind : Type := Unordered | Ordered.

(** The test, the wrapper tags and the item text of each kind of list. *)
Definition kind_test (kind : list_kind) : str -> bool :=
  match kind with
  | Unordered => is_unordered_item
  | Ordered => ordered_shape
  end.

Definition kind_open (kind : list_kind) : str :=
  match kind with
  | Unordered => lit "<ul>"
  | Ordered => lit "<ol>"
  end.

Definition kind_close (kind : list_kind) : str :=
  match kind with
  | Unordered => lit "</ul>"
  | Ordered => lit "</ol>"
  end.

Definition kind_item (kind : list_kind) (line : str) : str :=
  match kind with
  | Unordered => list_item (slice_from line 2)
  | Ordered => list_item (slice_from line 3)
  end.

(** [run] is a maximal run of adjacent items of one kind between the
    lines [pre] and the lines [post]: it is not empty, all its lines pass
    the test, and neither the line before it nor the line after it does. *)
Definition maximal_run (kind : list_kind) (pre run post : list str) : bool :=
  match run with [] => false | _ :: _ => true end &&
  List.forallb (kind_test kind) run &&
  negb (holds (kind_test kind) (last_line pre)) &&
  negb (holds (kind_test kind) (List.hd_error post)).


(* ------------------------------------------------------------------ *)
(** ** Code blocks *)

(** The fragments of the document made of the lines [lines]. *)
Definition fragments (lines : list str) : list str :=
  match convert_lines (S (length lines)) lines with
  | Return st => result st
  | _ => []
  end.

(** No line of [lines] is a fence delimiter. *)
Definition no_fence (lines : list str) : bool :=
  List.forallb (fun l => negb (startswith fence l)) lines.

(** What follows the content of a code block: the end of the document, or
    the delimiter that closes the block. *)
Definition closes_block (after : list str) : bool :=
  match after with
  | [] => true
  | d :: _ => startswith fence d
  end.

(** The two emphasis tags. *)
Definition em_open : str := lit "<em>".
Definition em_close : str := lit "</em>".

(* ================================================================== *)
(** * The client around the converter *)
(* ================================================================== *)

(** The rest of [OpenRouterClient] and the function of [views.py] that
    builds it.  The two network requests are not run: what each of them
    gives the code (a decoded JSON body, or a [RequestException]) is an
    argument of the functions that issue them.  The calls of [print],
    which write to the console and change nothing else, are left out. *)

(** The conversion of a text, run with the fuel of the text. *)
Definition markdown_html (text : str) : outcome str :=
  simple_markdown_to_html (fuel_for text) text.

Fixpoint str_eqb (a b : str) : bool :=
  match a, b with
  | [], [] => true
  | x :: a', y :: b' => char_eqb x y && str_eqb a' b'
  | _, _ => false
  end.

(* ------------------------------------------------------------------ *)
(** ** JSON values *)

(** The values that [response.json()] returns.  An object is the list of
    its members; a key is looked up from the front. *)
#[warnings="-register-all"]
Inductive json : Type :=
| JNull
| JBool (b : bool)
| JNumber (literal : str)
| JStr (s : str)
| JList (items : list json)
| JDict (fields : list (str * json)).

Fixpoint dict_get (key : str) (fields : list (str * json)) : option json :=
  match fields with
  | [] => None
  | (k, v) :: rest => if str_eqb k key then Some v else dict_get key rest
  end.

(** The exceptions that the client does not catch. *)
Inductive py_exception : Type :=
| PyAttributeError
| PyIndexError
| PyKeyError
| PyTypeError.

Inductive completion (A : Type) : Type :=
| Done (a : A)
| Uncaught (e : py_exception)
| NoFuel.

Arguments Done {A} a.
Arguments Uncaught {A} e.
Arguments NoFuel {A}.

Definition and_then {A B} (m : completion A) (k : A -> completion B) : completion B :=
  match m with
  | Done a => k a
  | Uncaught e => Uncaught e
  | NoFuel => NoFuel
  end.

Notation "x <~ m ;; k" := (and_then m (fun x => k))
  (at level 61, m at next level, right associativity).

(** The outcome of the converter, seen from its caller. *)
Definition lift {A} (m : outcome A) : completion A :=
  match m with
  | Return a => Done a
  | Raise IndexError => Uncaught PyIndexError
  | OutOfFuel => NoFuel
  end.

(** [obj.get(key, default)]: only a dict has the method. *)
Definition py_get (obj : json) (key : str) (default : json) : completion json :=
  match obj with
  | JDict fields =>
      Done (match dict_get key fields with
            | Some v => v
            | None => default
            end)
  | _ => Uncaught PyAttributeError
  end.

(** [obj[0]]: the first item of a list or of a string; no dict decoded
    from JSON has the key [0]; the other values are not subscriptable. *)
Definition py_first (obj : json) : completion json :=
  match obj with
  | JList (x :: _) => Done x
  | JList [] => Uncaught PyIndexError
  | JStr (c :: _) => Done (JStr [c])
  | JStr [] => Uncaught PyIndexError
  | JDict _ => Uncaught PyKeyError
  | _ => Uncaught PyTypeError
  end.

(** [obj[key]] for a string [key]: a dict has the key or raises
    [KeyError]; every other value raises [TypeError]. *)
Definition py_item (obj : json) (key : str) : completion json :=
  match obj with
  | JDict fields =>
      match dict_get key fields with
      | Some v => Done v
      | None => Uncaught PyKeyError
      end
  | _ => Uncaught PyTypeError
  end.

(** [value == s] for a string [s]. *)
Definition json_eq_str (value : json) (s : str) : bool :=
  match value with
  | JStr v => str_eqb v s
  | _ => false
  end.

(* ------------------------------------------------------------------ *)
(** ** The client and its key *)

Record client : Type := mk_client {
  api_key : str;
  demo_mode : bool;
  headers : list (str * str)
}.

(** [os.environ.get("OPENROUTER_API_KEY", "")], where [environ] is the
    value of the variable, if it is set. *)
Definition environ_key (environ : option str) : str :=
  match environ with
  | Some v => v
  | None => []
  end.

(** [OpenRouterClient(api_key)], that is [__init__]. *)
Definition OpenRouterClient (key : option str) (environ : option str) : client :=
  let key := match key with
             | Some k => if truthy k then k else environ_key environ
             | None => environ_key environ
             end in
  {| api_key := key;
     demo_mode := negb (truthy key);
     headers := [(lit "Authorization", lit "Bearer " ++ key);
                 (lit "Content-Type", lit "application/json")] |}.

(** [get_openrouter_client] of [views.py]; [settings] is the attribute
    [OPENROUTER_API_KEY] of the Django settings, if they have it. *)
Definition get_openrouter_client (environ settings : option str) : client :=
  let key := environ_key environ in
  let key := if negb (truthy key)
             then match settings with
                  | Some k => k
                  | None => key
                  end
             else key in
  OpenRouterClient (Some key) environ.

(* ------------------------------------------------------------------ *)
(** ** The models *)

(** What a request gives the code: a decoded body, or an exception of the
    class [requests.RequestException] with its message. *)
Inductive response : Type :=
| RequestException (message : str)
| Json (body : json).

(** The list of the demo mode. *)
Definition demo_models : list (json * str) :=
  [(JStr (lit "anthropic/claude-3-opus"),
    lit "Claude 3 Opus - Anthropic's most powerful model");
   (JStr (lit "anthropic/claude-3-sonnet"), lit "Claude 3 Sonnet - Balanced model");
   (JStr (lit "anthropic/claude-3-haiku"), lit "Claude 3 Haiku - Fast model");
   (JStr (lit "openai/gpt-4o"), lit "GPT-4o - OpenAI's latest model");
   (JStr (lit "openai/gpt-4-turbo"), lit "GPT-4 Turbo - Powerful model");
   (JStr (lit "openai/gpt-3.5-turbo"), lit "GPT-3.5 Turbo - Fast and efficient");
   (JStr (lit "google/gemini-pro"), lit "Gemini Pro - Google's flagship model");
   (JStr (lit "meta-llama/llama-3-70b-instruct"), lit "Llama 3 70B - Meta's large model")].

(** The list returned when the request fails: the source writes the
    same eight entries out a second time. *)
Definition default_models : list (json * str) :=
  [(JStr (lit "anthropic/claude-3-opus"),
    lit "Claude 3 Opus - Anthropic's most powerful model");
   (JStr (lit "anthropic/claude-3-sonnet"), lit "Claude 3 Sonnet - Balanced model");
   (JStr (lit "anthropic/claude-3-haiku"), lit "Claude 3 Haiku - Fast model");
   (JStr (lit "openai/gpt-4o"), lit "GPT-4o - OpenAI's latest model");
   (JStr (lit "openai/gpt-4-turbo"), lit "GPT-4 Turbo - Powerful model");
   (JStr (lit "openai/gpt-3.5-turbo"), lit "GPT-3.5 Turbo - Fast and efficient");
   (JStr (lit "google/gemini-pro"), lit "Gemini Pro - Google's flagship model");
   (JStr (lit "meta-llama/llama-3-70b-instruct"), lit "Llama 3 70B - Meta's large model")].

(** One element of the list comprehension:
    [(model["id"], f"{model['name']} - {model.get('description', 'No description')}")].
    [str_of] is the builtin [str] on the decoded values, which the
    f-string applies to its two fields. *)
Definition model_choice (str_of : json -> str) (model : json) : completion (json * str) :=
  id <~ py_item model (lit "id") ;;
  name <~ py_item model (lit "name") ;;
  description <~ py_get model (lit "description") (JStr (lit "No description")) ;;
  Done (id, str_of name ++ lit " - " ++ str_of description).

Fixpoint model_choices (str_of : json -> str) (models : list json)
    : completion (list (json * str)) :=
  match models with
  | [] => Done []
  | model :: models' =>
      choice <~ model_choice str_of model ;;
      choices <~ model_choices str_of models' ;;
      Done (choice :: choices)
  end.

(** [[... for model in models_data]]: a list gives its items; a string
    and a dict give characters and keys, which are strings and cannot be
    indexed by ["id"], so only the empty ones go through; the other
    values are not iterable. *)
Definition comprehension (str_of : json -> str) (models_data : json)
    : completion (list (json * str)) :=
  match models_data with
  | JList items => model_choices str_of items
  | JStr [] => Done []
  | JDict [] => Done []
  | _ => Uncaught PyTypeError
  end.

Definition get_available_models (str_of : json -> str) (c : client) (reply : response)
    : completion (list (json * str)) :=
  if demo_mode c then Done demo_models
  else match reply with
       | Json body =>
           models_data <~ py_get body (lit "data") (JList []) ;;
           comprehension str_of models_data
       | RequestException _ => Done default_models
       end.

(* ------------------------------------------------------------------ *)
(** ** The demo response *)

(** [next((name for id, name in choices if id == model_id), model_id)] *)
Fixpoint first_name (choices : list (json * str)) (model_id : str) : str :=
  match choices with
  | [] => model_id
  | (id, name) :: rest =>
      if json_eq_str id model_id then name else first_name rest model_id
  end.

(** The f-string of the demo response, line by line: the text is these
    lines joined by line breaks (it ends with a line break, hence the
    last, empty line). *)
Definition demo_lines (model_name prompt : str) : list str :=
  [lit "# Response from " ++ model_name;
   [];
   lit "This is a demo response since no OpenRouter API key was provided. In a production environment, this would be an actual response from the selected AI model.";
   [];
   lit "## About Your Prompt";
   [];
   lit "You asked:";
   [];
   lit "> " ++ prompt;
   [];
   lit "## Sample Response";
   [];
   lit "Here's how the AI might respond to your prompt:";
   [];
   lit "1. First point about your query";
   lit "2. Second point with more details";
   lit "3. Third point with some analysis";
   [];
   lit "### Code Example";
   [];
   lit "```python";
   lit "def example_function():";
   lit "    print(" ++ [dquote] ++ lit "This is just a demonstration" ++ [dquote] ++ lit ")";
   lit "    return " ++ [dquote] ++ lit "No actual API call was made" ++ [dquote];
   lit "```";
   [];
   lit "**Important note:** To get real responses from AI models, you'll need to:";
   [];
   lit "- Create an account at [OpenRouter](https://openrouter.ai/)";
   lit "- Get an API key";
   lit "- Set it as an environment variable or in your settings";
   [];
   lit "*This is just placeholder text to demonstrate formatting.*";
   []].

Definition _get_demo_response (str_of : json -> str) (c : client) (models_reply : response)
    (prompt model_id : str) : completion str :=
  choices <~ get_available_models str_of c models_reply ;;
  let model_name := first_name choices model_id in
  Done (join [newline] (demo_lines model_name prompt)).

(* ------------------------------------------------------------------ *)
(** ** Completions *)

Record completion_result : Type := mk_result {
  raw_output : str;
  formatted_output : str
}.

(** [formatted_output = self.simple_markdown_to_html(raw_output)] and the
    dict that is returned: a value that is not a string has no [split]. *)
Definition formatted_result (raw : json) : completion completion_result :=
  match raw with
  | JStr s =>
      formatted <~ lift (markdown_html s) ;;
      Done {| raw_output := s; formatted_output := formatted |}
  | _ => Uncaught PyAttributeError
  end.

(** [generate_completion]; [models_reply] is what the request for the
    models gives, [reply] what the request for the completion gives. *)
Definition generate_completion (str_of : json -> str) (c : client)
    (models_reply reply : response) (prompt model_id : str)
    : completion completion_result :=
  if demo_mode c then
    raw <~ _get_demo_response str_of c models_reply prompt model_id ;;
    formatted_result (JStr raw)
  else
    match reply with
    | Json body =>
        choices <~ py_get body (lit "choices") (JList [JDict []]) ;;
        choice <~ py_first choices ;;
        message <~ py_get choice (lit "message") (JDict []) ;;
        raw <~ py_get message (lit "content") (JStr (lit "No response")) ;;
        formatted_result raw
    | RequestException e =>
        let error_message := lit "Error generating completion: " ++ e in
        Done {| raw_output := error_message;
                formatted_output := lit "<p>" ++ error_message ++ lit "</p>" |}
    end.

(* ------------------------------------------------------------------ *)
(** ** Vocabulary of the statements about the client *)

(** The fragments of the demo page before and after the prompt. *)
Definition demo_page_before : list str :=
  [lit "<br>";
   lit "<p>This is a demo response since no OpenRouter API key was provided. In a production environment, this would be an actual response from the selected AI model.</p>";
   lit "<br>";
   lit "<h2>About Your Prompt</h2>";
   lit "<br>";
   lit "<p>You asked:</p>";
   lit "<br>"].

Definition demo_page_after : list str :=
  [lit "<br>";
   lit "<h2>Sample Response</h2>";
   lit "<br>";
   lit "<p>Here's how the AI might respond to your prompt:</p>";
   lit "<br>";
   lit "<ol>";
   lit "<li>First point about your query</li>";
   lit "<li>Second point with more details</li>";
   lit "<li>Third point with some analysis</li>";
   lit "</ol>";
   lit "<br>";
   lit "<h3>Code Example</h3>";
   lit "<br>";
   code_open (lit "python");
   lit "def example_function():";
   lit "    print(" ++ [dquote] ++ lit "This is just a demonstration" ++ [dquote] ++ lit ")";
   lit "    return " ++ [dquote] ++ lit "No actual API call was made" ++ [dquote];
   code_close;
   lit "<br>";
   lit "<p><strong>Important note:</strong> To get real responses from AI models, you'll need to:</p>";
   lit "<br>";
   lit "<ul>";
   lit "<li>Create an account at [OpenRouter](https://openrouter.ai/)</li>";
   lit "<li>Get an API key</li>";
   lit "<li>Set it as an environment variable or in your settings</li>";
   lit "</ul>";
   lit "<br>";
   lit "<p><em>This is just placeholder text to demonstrate formatting.</em></p>";
   lit "<br>"].

(** The number of fence delimiters among the lines. *)
Definition count_fences (lines : list str) : nat :=
  length (List.filter (startswith fence) lines).

(** A sample of [str] on the decoded values: right on the strings. *)
Definition str_of_strings (value : json) : str :=
  match value with
  | JStr s => s
  | _ => []
  end.

(** The decoded body has no content to show: it has no ["choices"], or
    its first choice has no ["message"], or that message has no
    ["content"]. *)
Definition lacks_content (body : json) : bool :=
  match body with
  | JDict fields =>
      match dict_get (lit "choices") fields with
      | None => true
      | Some (JList (JDict choice :: _)) =>
          match dict_get (lit "message") choice with
          | None => true
          | Some (JDict message) =>
              match dict_get (lit "content") message with
              | None => true
              | Some _ => false
              end
          | Some _ => false
          end
      | Some _ => false
      end
  | _ => false
  end.

(** The content of the message of the first choice, when the decoded
    body has all three. *)
Definition first_content (body : json) : option json :=
  match body with
  | JDict fields =>
      match dict_get (lit "choices") fields with
      | Some (JList (JDict choice :: _)) =>
          match dict_get (lit "message") choice with
          | Some (JDict message) => dict_get (lit "content") message
          | _ => None
          end
      | _ => None
      end
  | _ => None
  end.

Definition is_string (value : json) : bool :=
  match value with
  | JStr _ => true
  | _ => false
  end.

(** A model of the list of the provider that the comprehension accepts:
    an object with an ["id"] and a ["name"]. *)
Definition well_formed_model (model : json) : bool :=
  match model with
  | JDict fields =>
      match dict_get (lit "id") fields, dict_get (lit "name") fields with
      | Some _, Some _ => true
      | _, _ => false
      end
  | _ => false
  end.

(** An object without ["id"] or without ["name"]. *)
Definition lacks_id_or_name (model : json) : bool :=
  match model with
  | JDict fields =>
      match dict_get (lit "id") fields, dict_get (lit "name") fields with
      | Some _, Some _ => false
      | _, _ => true
      end
  | _ => false
  end.

Definition model_id (model : json) : option json :=
  match model with
  | JDict fields => dict_get (lit "id") fields
  | _ => None
  end.

(** The label of a model in the form: its name, a dash, and its
    description or the words that stand for a missing one. *)
Definition model_label (str_of : json -> str) (model : json) : str :=
  match model with
  | JDict fields =>
      match dict_get (lit "name") fields with
      | Some name =>
          str_of name ++ lit " - " ++
          str_of (match dict_get (lit "description") fields with
                  | Some description => description
                  | None => JStr (lit "No description")
                  end)
      | None => []
      end
  | _ => []
  end.

(** The key that the client of [views.py] ends up with: the environment
    variable when it is set and not empty, else the attribute of the
    settings, else nothing. *)
Definition effective_key (environ settings : option str) : str :=
  match environ with
  | Some (c :: k) => c :: k
  | _ =>
      match settings with
      | Some k => k
      | None => []
      end
  end.

(* ------------------------------------------------------------------ *)
(** ** Tactics *)

(** Literals are evaluated before a proof looks at them. *)
Ltac eval_lits :=
  repeat match goal with
         | |- context [lit ?s] =>
             let v := eval vm_compute in (lit s) in change (lit s) with v
         end.

(** Counting through the literal characters at the head of a string. *)
Ltac count_step :=
  cbn [app count_sub startswith char_eqb N.eqb Pos.eqb andb Nat.add];
  rewrite ?Nat.add_0_r.

(* ================================================================== *)
(** * Strings: basic facts *)
(* ================================================================== *)

Lemma char_eqb_eq (a b : char) : char_eqb a b = true <-> a = b.
Proof. apply N.eqb_eq. Qed.

Lemma char_eqb_refl (a : char) : char_eqb a a = true.
Proof. apply N.eqb_refl. Qed.

Lemma startswith_app (p s : str) : startswith p (p ++ s) = true.
Proof.
  induction p as [|a p IH]; simpl; [reflexivity|].
  now rewrite char_eqb_refl.
Qed.

Lemma startswith_inv (p s : str) :
  startswith p s = true -> exists r, s = p ++ r.
Proof.
  revert s; induction p as [|a p IH]; intros s H; simpl in *.
  - now exists s.
  - destruct s as [|b s]; [discriminate|].
    apply andb_true_iff in H as [Hab Hps].
    apply char_eqb_eq in Hab; subst b.
    destruct (IH _ Hps) as [r ->]. now exists r.
Qed.

Lemma len_app {A} (l1 l2 : list A) : len (l1 ++ l2) = (len l1 + len l2)%Z.
Proof. unfold len. rewrite length_app. lia. Qed.

(** ** Whitespace *)

Lemma lstrip_all_space (s : str) :
  lstrip s = [] <-> List.forallb isspace s = true.
Proof.
  induction s as [|c s IH]; simpl; [tauto|].
  destruct (isspace c); simpl; [exact IH|].
  split; discriminate.
Qed.

Lemma lstrip_keeps (s : str) (c : char) :
  List.In c s -> isspace c = false ->
  exists d, List.In d (lstrip s) /\ isspace d = false.
Proof.
  induction s as [|x s IH]; simpl; [tauto|].
  intros Hin Hc.
  destruct (isspace x) eqn:Hx.
  - destruct Hin as [-> | Hin]; [congruence|]. now apply IH.
  - exists c. split; [exact Hin | exact Hc].
Qed.

Lemma strip_nonblank (s : str) (c : char) :
  List.In c s -> isspace c = false -> truthy (strip s) = true.
Proof.
  intros Hin Hc. unfold strip, rstrip.
  destruct (lstrip_keeps s c Hin Hc) as (d & Hd & Hds).
  apply in_rev in Hd.
  destruct (lstrip_keeps _ d Hd Hds) as (e & He & _).
  apply in_rev in He.
  destruct (rev (lstrip (rev (lstrip s)))); [destruct He | reflexivity].
Qed.

Lemma strip_blank (s : str) :
  List.forallb isspace s = true -> strip s = [].
Proof.
  intros H. unfold strip, rstrip.
  apply lstrip_all_space in H. now rewrite H.
Qed.

Lemma truthy_strip (s : str) :
  truthy (strip s) = negb (List.forallb isspace s).
Proof.
  destruct (forallb isspace s) eqn:H.
  - now rewrite strip_blank.
  - simpl. destruct (forallb_forall isspace s) as [_ Hall].
    assert (Hex : exists c, In c s /\ isspace c = false).
    { clear Hall. induction s as [|x s IH]; simpl in H; [discriminate|].
      destruct (isspace x) eqn:Hx; simpl in H.
      - destruct (IH H) as (c & Hc & Hs). exists c; simpl; auto.
      - exists x; simpl; auto. }
    destruct Hex as (c & Hc & Hs). now apply strip_nonblank with c.
Qed.

(** ** Digits are not whitespace *)

Lemma isspace_values (c : char) :
  isspace c = true ->
  List.In c [9; 10; 11; 12; 13; 28; 29; 30; 31; 32; 133; 160; 5760;
             8192; 8193; 8194; 8195; 8196; 8197; 8198; 8199; 8200; 8201;
             8202; 8232; 8233; 8239; 8287; 12288]%N.
Proof.
  unfold isspace. intros H.
  repeat (apply orb_true_iff in H; destruct H as [H | H]);
    try (apply andb_true_iff in H; destruct H as [H1 H2];
         apply N.leb_le in H1; apply N.leb_le in H2);
    try apply N.eqb_eq in H; simpl.
  all: lia.
Qed.

Lemma isdigit_not_space (c : char) : isdigit c = true -> isspace c = false.
Proof.
  intros Hd. destruct (isspace c) eqn:Hs; [|reflexivity].
  apply isspace_values in Hs. simpl in Hs.
  repeat (destruct Hs as [<- | Hs]; [vm_compute in Hd; discriminate|]).
  destruct Hs.
Qed.

Lemma isdigit_ascii (c : char) : (48 <= c <= 57)%N -> isdigit c = true.
Proof.
  intros [H1 H2]. unfold isdigit, digit_ranges.
  cbn [existsb fst snd].
  apply N.leb_le in H1. apply N.leb_le in H2. now rewrite H1, H2.
Qed.

(** ** Indexing *)

Lemma index_nat {A} (l : list A) (k : nat) :
  index l (Z.of_nat k) =
  match List.nth_error l k with
  | Some a => Return a
  | None => Raise IndexError
  end.
Proof.
  unfold index.
  destruct (Z.ltb_spec (Z.of_nat k) 0); [lia|].
  destruct (Z.ltb_spec (Z.of_nat k) 0); [lia|].
  now rewrite Nat2Z.id.
Qed.

Lemma index_Some {A} (l : list A) (k : nat) (a : A) :
  List.nth_error l k = Some a -> index l (Z.of_nat k) = Return a.
Proof. intros H. now rewrite index_nat, H. Qed.

(** [is_ordered_item] never raises: the index is guarded by the test of
    the stripped line. *)
Lemma is_ordered_item_shape (l : str) :
  is_ordered_item l = Return (ordered_shape l).
Proof.
  unfold is_ordered_item, ordered_shape.
  destruct l as [|d r].
  - reflexivity.
  - destruct (truthy (strip (d :: r))) eqn:Hs.
    + change (index (d :: r) 0) with (Return (A:=char) d). cbn [bind].
      destruct (isdigit d); [|reflexivity].
      reflexivity.
    + destruct (isdigit d) eqn:Hd; [|reflexivity].
      apply isdigit_not_space in Hd.
      rewrite (strip_nonblank (d :: r) d) in Hs; [discriminate | now left | exact Hd].
Qed.

(** The look-behind and the look-ahead of the list branches, guarded by
    the tests on [i], read the neighbours of the line. *)
Lemma lookup_prev {B} (lines : list str) (k : nat) (g : str -> outcome B) (b : B) :
  (k < List.length lines)%nat ->
  (if (Z.of_nat k =? 0)%Z then Return b
   else prev <- index lines (Z.of_nat k - 1) ;; g prev) =
  match prev_line lines k with
  | None => Return b
  | Some prev => g prev
  end.
Proof.
  intros Hk. destruct k as [|k]; [reflexivity|].
  destruct (Z.eqb_spec (Z.of_nat (S k)) 0); [lia|].
  replace (Z.of_nat (S k) - 1)%Z with (Z.of_nat k) by lia.
  rewrite index_nat. cbn [prev_line].
  destruct (nth_error lines k) eqn:E; [reflexivity|].
  apply nth_error_None in E. lia.
Qed.

Lemma lookup_next {B} (lines : list str) (k : nat) (g : str -> outcome B) (b : B) :
  (k < List.length lines)%nat ->
  (if (Z.of_nat k =? len lines - 1)%Z then Return b
   else next <- index lines (Z.of_nat k + 1) ;; g next) =
  match next_line lines k with
  | None => Return b
  | Some next => g next
  end.
Proof.
  intros Hk. unfold next_line, len.
  destruct (Z.eqb_spec (Z.of_nat k) (Z.of_nat (List.length lines) - 1)) as [E|E].
  - destruct (nth_error lines (S k)) eqn:E'; [|reflexivity].
    assert (nth_error lines (S k) <> None) by congruence.
    apply nth_error_Some in H. lia.
  - replace (Z.of_nat k + 1)%Z with (Z.of_nat (S k)) by lia.
    rewrite index_nat.
    destruct (nth_error lines (S k)) eqn:E'; [reflexivity|].
    apply nth_error_None in E'. lia.
Qed.

Lemma regular_text_fragment (st : state) (line : str) :
  regular_text st line = append st (regular_fragment line).
Proof.
  unfold regular_text, regular_fragment.
  destruct (truthy (strip line)); cbn [negb]; [|reflexivity].
  now destruct (has_block_tag _).
Qed.

Lemma unordered_item_view (lines : list str) (st : state) (k : nat) (line : str) :
  i st = Z.of_nat k -> (k < List.length lines)%nat ->
  unordered_item lines st line =
  Return {| i := i st; in_code_block := in_code_block st;
            result := result st ++
              (if holds is_unordered_item (prev_line lines k) then [] else [lit "<ul>"]) ++
              [list_item (slice_from line 2)] ++
              (if holds is_unordered_item (next_line lines k) then [] else [lit "</ul>"]) |}.
Proof.
  intros Hi Hk. unfold unordered_item. rewrite Hi.
  rewrite (lookup_prev lines k (fun prev => Return (negb (is_unordered_item prev))) true Hk).
  destruct (prev_line lines k) as [prev|]; cbn [bind holds];
    [destruct (is_unordered_item prev); cbn [negb]|];
    cbn [append i]; rewrite Hi;
    rewrite (lookup_next lines k (fun next => Return (negb (is_unordered_item next))) true Hk);
    (destruct (next_line lines k) as [next|]; cbn [bind holds];
     [destruct (is_unordered_item next); cbn [negb]|]);
    unfold append; cbn [i in_code_block result];
    rewrite <- ?Hi, <- ?app_assoc; cbn [app]; rewrite ?app_nil_r; reflexivity.
Qed.

Lemma ordered_item_view (lines : list str) (st : state) (k : nat) (line : str) :
  i st = Z.of_nat k -> (k < List.length lines)%nat ->
  ordered_item lines st line =
  Return {| i := i st; in_code_block := in_code_block st;
            result := result st ++
              (if holds ordered_shape (prev_line lines k) then [] else [lit "<ol>"]) ++
              [list_item (slice_from line (find (lit ".") line + 2))] ++
              (if holds ordered_shape (next_line lines k) then [] else [lit "</ol>"]) |}.
Proof.
  intros Hi Hk. unfold ordered_item. rewrite Hi.
  rewrite (lookup_prev lines k
             (fun prev => ord <- is_ordered_item prev ;; Return (negb ord)) true Hk).
  destruct (prev_line lines k) as [prev|]; rewrite ?is_ordered_item_shape;
    cbn [bind holds];
    [destruct (ordered_shape prev); cbn [negb]|];
    cbn [append i]; rewrite Hi;
    rewrite (lookup_next lines k
               (fun next => ord <- is_ordered_item next ;; Return (negb ord)) true Hk);
    (destruct (next_line lines k) as [next|]; rewrite ?is_ordered_item_shape;
     cbn [bind holds];
     [destruct (ordered_shape next); cbn [negb]|]);
    unfold append; cbn [i in_code_block result];
    rewrite <- ?Hi, <- ?app_assoc; cbn [app]; rewrite ?app_nil_r; reflexivity.
Qed.

(** One pass through the body never raises and does what [line_output]
    says: it appends the fragments of the line, sets the flag and moves
    to the next line. *)
Lemma loop_body_view (lines : list str) (st : state) (k : nat) (line : str) :
  i st = Z.of_nat k -> List.nth_error lines k = Some line ->
  loop_body lines st =
  let out := line_output (prev_line lines k) line (next_line lines k) (in_code_block st) in
  Return {| i := i st + 1; in_code_block := snd out; result := result st ++ fst out |}.
Proof.
  intros Hi Hline.
  assert (Hk : (k < List.length lines)%nat).
  { apply nth_error_Some. congruence. }
  unfold loop_body. rewrite Hi, (index_Some lines k line Hline). cbn [bind].
  unfold line_output.
  destruct (startswith fence line).
  { destruct (in_code_block st) eqn:Hc; cbn [negb]; cbv zeta;
      unfold incr, set_code_block, append; cbn [i in_code_block result fst snd];
      rewrite Hi; reflexivity. }
  destruct (in_code_block st) eqn:Hc.
  { cbv zeta. unfold incr, append; cbn [i in_code_block result fst snd].
    rewrite Hi, Hc. reflexivity. }
  cbv zeta. cbn [fst snd]. unfold block_output.
  destruct (startswith (lit "# ") line);
    [unfold incr, append; cbn [bind i in_code_block result]; now rewrite Hi, Hc|].
  destruct (startswith (lit "## ") line);
    [unfold incr, append; cbn [bind i in_code_block result]; now rewrite Hi, Hc|].
  destruct (startswith (lit "### ") line);
    [unfold incr, append; cbn [bind i in_code_block result]; now rewrite Hi, Hc|].
  destruct (startswith (lit "#### ") line);
    [unfold incr, append; cbn [bind i in_code_block result]; now rewrite Hi, Hc|].
  destruct (is_unordered_item line).
  { rewrite (unordered_item_view lines st k line Hi Hk). cbn [bind].
    unfold incr; cbn [i in_code_block result]. now rewrite Hi, Hc. }
  rewrite is_ordered_item_shape. cbn [bind].
  destruct (ordered_shape line).
  { rewrite (ordered_item_view lines st k line Hi Hk). cbn [bind].
    unfold incr; cbn [i in_code_block result]. now rewrite Hi, Hc. }
  rewrite regular_text_fragment. cbn [bind].
  unfold incr, append; cbn [i in_code_block result]. now rewrite Hi, Hc.
Qed.

(* ================================================================== *)
(** * The loop *)
(* ================================================================== *)

Lemma nth_error_middle (A X : list str) (l : str) :
  List.nth_error (A ++ l :: X) (List.length A) = Some l.
Proof. rewrite nth_error_app2 by lia. now rewrite Nat.sub_diag. Qed.

Lemma prev_line_app (A X : list str) :
  prev_line (A ++ X) (List.length A) = last_line A.
Proof.
  unfold last_line.
  destruct A as [|a A _] using rev_ind; [reflexivity|].
  rewrite rev_app_distr, length_app, Nat.add_comm.
  cbn [rev app length Nat.add prev_line].
  rewrite <- app_assoc. apply nth_error_middle.
Qed.

Lemma last_line_snoc (A : list str) (l : str) : last_line (A ++ [l]) = Some l.
Proof. unfold last_line. now rewrite rev_app_distr. Qed.

Lemma next_line_app (A X : list str) (l : str) :
  next_line (A ++ l :: X) (List.length A) = List.hd_error X.
Proof.
  unfold next_line. rewrite nth_error_app2 by lia.
  replace (S (length A) - length A)%nat with 1%nat by lia.
  now destruct X.
Qed.

(** The passes over a stretch [B] of the document [A ++ B ++ C], started
    at its first line, never raise and produce [render]. *)
Lemma iterate_render (B A C : list str) (st : state) :
  i st = len A ->
  iterate (List.length B) (A ++ B ++ C) st =
  let out := render (last_line A) B (List.hd_error C) (in_code_block st) in
  Return {| i := i st + len B; in_code_block := snd out;
            result := result st ++ fst out |}.
Proof.
  revert A st. induction B as [|l B IH]; intros A st Hi.
  - cbn. unfold len; cbn. rewrite Z.add_0_r, app_nil_r. now destruct st.
  - cbn [iterate length].
    rewrite (loop_body_view (A ++ (l :: B) ++ C) st (length A) l Hi
               (nth_error_middle A (B ++ C) l)).
    cbv zeta. cbn [bind].
    rewrite prev_line_app. cbn [app]. rewrite next_line_app.
    replace (A ++ l :: B ++ C) with ((A ++ [l]) ++ B ++ C)
      by (rewrite <- app_assoc; reflexivity).
    rewrite IH by (cbn [i]; rewrite Hi, len_app; reflexivity).
    cbv zeta. cbn [i in_code_block result render].
    rewrite last_line_snoc.
    replace (hd_error (B ++ C)) with
      (match B with [] => hd_error C | n :: _ => Some n end) by now destruct B.
    f_equal. f_equal.
    + unfold len. cbn [length]. lia.
    + now rewrite <- app_assoc.
Qed.

(** With enough fuel the loop is the iteration of its body over the
    lines that are left. *)
Lemma while_loop_iterate (lines : list str) (n fuel : nat) (st : state) :
  (n <= List.length lines)%nat -> (n < fuel)%nat ->
  i st = (len lines - Z.of_nat n)%Z ->
  while_loop fuel lines st = iterate n lines st.
Proof.
  revert fuel st. induction n as [|n IH]; intros fuel st Hn Hf Hi.
  - destruct fuel as [|fuel]; [lia|]. cbn [while_loop iterate].
    destruct (Z.ltb_spec (i st) (len lines)); [lia | reflexivity].
  - destruct fuel as [|fuel]; [lia|]. cbn [while_loop iterate].
    destruct (Z.ltb_spec (i st) (len lines)); [|lia].
    set (k := (length lines - S n)%nat).
    assert (Hk : i st = Z.of_nat k) by (unfold len in Hi; lia).
    destruct (nth_error lines k) as [line|] eqn:Hline;
      [| apply nth_error_None in Hline; lia].
    rewrite (loop_body_view lines st k line Hk Hline). cbv zeta. cbn [bind].
    apply IH; [lia | lia | cbn [i]; lia].
Qed.

(** The conversion of the lines of a document: total, and what it
    returns. *)
Lemma convert_lines_render (lines : list str) (fuel : nat) :
  (List.length lines < fuel)%nat ->
  convert_lines fuel lines =
  let out := render None lines None false in
  Return (close_unclosed {| i := len lines; in_code_block := snd out; result := fst out |}).
Proof.
  intros Hf. unfold convert_lines.
  rewrite (while_loop_iterate lines (length lines))
    by (unfold len, initial_state; cbn [i]; lia).
  pose proof (iterate_render lines [] [] initial_state eq_refl) as H.
  cbn [app] in H. rewrite app_nil_r in H. rewrite H. reflexivity.
Qed.

(** The conversion of a text: total, and what it returns. *)
Lemma simple_markdown_to_html_render (text : str) (extra : nat) :
  simple_markdown_to_html (fuel_for text + extra) text =
  let out := render None (split newline text) None false in
  Return (join [newline] (fst out ++ if snd out then [code_close] else [])).
Proof.
  unfold simple_markdown_to_html, final_state, fuel_for.
  rewrite convert_lines_render by lia. cbv zeta. cbn [bind].
  unfold close_unclosed, append. cbn [in_code_block result].
  destruct (snd (render None (split newline text) None false));
    cbn [result]; now rewrite ?app_nil_r.
Qed.

(* ================================================================== *)
(** * Totality *)
(* ================================================================== *)

(** C8.  For every input text the conversion terminates and returns a
    string: with the fuel of the text, and with any larger amount, the
    loop ends and the outcome is a value, never an exception and never an
    exhausted loop.  This holds for the empty text, for an unterminated
    code block and for malformed markers alike. *)
Theorem simple_markdown_to_html_total (text : str) :
  exists out : str,
    forall extra : nat,
      simple_markdown_to_html (fuel_for text + extra) text = Return out.
Proof.
  eexists. intros extra. rewrite simple_markdown_to_html_render. reflexivity.
Qed.

(* ================================================================== *)
(** * The empty text *)
(* ================================================================== *)

(** C9, as the specification states it, fails: the output for the empty
    text is not empty and not made of whitespace. *)
Lemma empty_text_output_not_blank :
  ~ (exists out : str,
       simple_markdown_to_html (fuel_for []) [] = Return out /\
       List.forallb isspace out = true).
Proof.
  intros (out & Hrun & Hblank).
  vm_compute in Hrun. injection Hrun as <-.
  vm_compute in Hblank. discriminate.
Qed.

(** C9, amended.  The empty text has one line, the empty line, and its
    conversion is the single line-break element, returned without any
    exception. *)
Theorem empty_text_is_line_break (extra : nat) :
  simple_markdown_to_html (fuel_for [] + extra) [] = Return (lit "<br>").
Proof.
  rewrite simple_markdown_to_html_render. vm_compute. reflexivity.
Qed.

(* ================================================================== *)
(** * One line at a time *)
(* ================================================================== *)

Lemma line_output_regular (prev next : option str) (line : str) :
  is_regular line = true ->
  line_output prev line next false = ([regular_fragment line], false).
Proof.
  unfold is_regular, reaches_ordered_test, line_output, block_output. intros H.
  repeat (apply andb_true_iff in H; destruct H as [H ?]).
  repeat match goal with
         | E : negb ?b = true |- _ => apply negb_true_iff in E; rewrite E
         end.
  reflexivity.
Qed.

Lemma loop_body_regular (lines : list str) (st : state) (k : nat) (line : str) :
  i st = Z.of_nat k -> List.nth_error lines k = Some line ->
  in_code_block st = false -> is_regular line = true ->
  loop_body lines st =
  Return {| i := i st + 1; in_code_block := false;
            result := result st ++ [regular_fragment line] |}.
Proof.
  intros Hi Hline Hc Hreg.
  rewrite (loop_body_view lines st k line Hi Hline). cbv zeta.
  now rewrite Hc, line_output_regular.
Qed.

Lemma regular_fragment_nonblank (line : str) (c : char) :
  List.In c line -> isspace c = false ->
  regular_fragment line = wrap_paragraph (re_sub_links (format_emphasis line)).
Proof.
  intros Hin Hc. unfold regular_fragment, wrap_paragraph.
  now rewrite (strip_nonblank line c Hin Hc).
Qed.

(** ** Escaping *)

Lemma replace_chr_app (old : char) (new a b : str) :
  replace_chr old new (a ++ b) = replace_chr old new a ++ replace_chr old new b.
Proof. apply flat_map_app. Qed.

Lemma escape_cons (c : char) (line : str) :
  escape (c :: line) = escape_char c ++ escape line.
Proof.
  unfold escape.
  change (c :: line) with ([c] ++ line).
  rewrite !replace_chr_app. f_equal.
  unfold escape_char, replace_chr at 3. cbn [flat_map app].
  destruct (char_eqb c amp) eqn:Ea; [reflexivity|].
  rewrite app_nil_r. unfold replace_chr at 2. cbn [flat_map app].
  destruct (char_eqb c lt_sign) eqn:El; [reflexivity|].
  unfold replace_chr. cbn [flat_map app].
  destruct (char_eqb c gt_sign) eqn:Eg; reflexivity.
Qed.

(** Each character of the line is escaped once: the order of the three
    replacements never escapes an entity a second time. *)
Lemma escape_flat_map (line : str) :
  escape line = List.flat_map escape_char line.
Proof.
  induction line as [|c line IH]; [reflexivity|].
  rewrite escape_cons, IH. reflexivity.
Qed.

(** C3.  A line met inside an open code block that is not a fence
    delimiter is emitted as it is, but for the escaping of [&], [<] and
    [>] (the three replacements in this order, which amounts to escaping
    each character once), with no inline formatting, and the block stays
    open.  A fence delimiter never becomes code content: met inside a
    block it only emits the closing markup, met outside it only emits the
    opening markup with the language tag. *)
Theorem fenced_content_escaped
    (lines : list str) (st : state) (k : nat) (line : str) :
  i st = Z.of_nat k -> List.nth_error lines k = Some line ->
  (in_code_block st = true -> startswith fence line = false ->
   loop_body lines st =
   Return {| i := i st + 1; in_code_block := true;
             result := result st ++ [escape line] |} /\
   escape line =
   replace_chr gt_sign (lit "&gt;")
     (replace_chr lt_sign (lit "&lt;") (replace_chr amp (lit "&amp;") line)) /\
   escape line = List.flat_map escape_char line) /\
  (startswith fence line = true ->
   loop_body lines st =
   Return {| i := i st + 1; in_code_block := negb (in_code_block st);
             result := result st ++
               [if in_code_block st then code_close
                else code_open (strip (slice_from line 3))] |}).
Proof.
  intros Hi Hline.
  rewrite (loop_body_view lines st k line Hi Hline). cbv zeta.
  unfold line_output. split.
  - intros Hc Hf. rewrite Hc, Hf. cbn [fst snd].
    split; [reflexivity|]. split; [reflexivity | apply escape_flat_map].
  - intros Hf. rewrite Hf. now destruct (in_code_block st).
Qed.

Lemma fenced_content_escaped_witness :
  loop_body [lit "```python"; lit "a<b & c"; lit "```"]
    {| i := 1; in_code_block := true; result := [code_open (lit "python")] |} =
  Return {| i := 2; in_code_block := true;
            result := [code_open (lit "python"); lit "a&lt;b &amp; c"] |} /\
  loop_body [lit "```python"; lit "a<b & c"; lit "```"]
    {| i := 2; in_code_block := true;
       result := [code_open (lit "python"); lit "a&lt;b &amp; c"] |} =
  Return {| i := 3; in_code_block := false;
            result := [code_open (lit "python"); lit "a&lt;b &amp; c"; code_close] |}.
Proof.
  split.
  - exact (proj1 (proj1 (fenced_content_escaped
             [lit "```python"; lit "a<b & c"; lit "```"]
             {| i := 1; in_code_block := true; result := [code_open (lit "python")] |}
             1 (lit "a<b & c") eq_refl eq_refl) eq_refl eq_refl)).
  - exact (proj2 (fenced_content_escaped
             [lit "```python"; lit "a<b & c"; lit "```"]
             {| i := 2; in_code_block := true;
                result := [code_open (lit "python"); lit "a&lt;b &amp; c"] |}
             2 (lit "```") eq_refl eq_refl) eq_refl).
Defined.

(* ================================================================== *)
(** * The substitution of the links *)
(* ================================================================== *)

Lemma no_char_cons (c x : char) (s : str) :
  no_char c (x :: s) = negb (char_eqb x c) && no_char c s.
Proof. reflexivity. Qed.

Lemma no_char_app (c : char) (a b : str) :
  no_char c (a ++ b) = no_char c a && no_char c b.
Proof. apply forallb_app. Qed.

Lemma take_until_spec (c : char) (s a b : str) :
  take_until c s = (a, b) ->
  s = a ++ b /\ no_char c a = true /\ (b = [] \/ exists b', b = c :: b').
Proof.
  revert a b. induction s as [|x s IH]; intros a b H; cbn [take_until] in H.
  - injection H as <- <-. auto.
  - destruct (char_eqb x c) eqn:E.
    + injection H as <- <-. apply char_eqb_eq in E; subst x.
      split; [reflexivity|]. split; [reflexivity|]. right. now exists s.
    + destruct (take_until c s) as [a' b'] eqn:T. injection H as <- <-.
      destruct (IH _ _ eq_refl) as (-> & Ha & Hb).
      split; [reflexivity|]. split; [|exact Hb].
      now rewrite no_char_cons, E, Ha.
Qed.

Lemma take_until_app (c : char) (a b : str) :
  no_char c a = true -> take_until c (a ++ c :: b) = (a, c :: b).
Proof.
  intros H. induction a as [|x a IH]; cbn [app take_until].
  - now rewrite char_eqb_refl.
  - rewrite no_char_cons in H. apply andb_true_iff in H as [Hx Ha].
    apply negb_true_iff in Hx. rewrite Hx, (IH Ha). reflexivity.
Qed.

Lemma match_link_inv (s text url rest : str) :
  match_link s = Some (text, url, rest) ->
  s = link_source text url ++ rest /\ link_groups text url = true.
Proof.
  unfold match_link, link_source, link_groups.
  destruct s as [|c s1]; [discriminate|].
  destruct (char_eqb c lbrack) eqn:Ec; [|discriminate].
  apply char_eqb_eq in Ec; subst c.
  destruct (take_until rbrack s1) as [t r1] eqn:T1.
  destruct (take_until_spec _ _ _ _ T1) as (-> & Ht & Hr1).
  destruct t as [|t0 t]; [discriminate|].
  destruct r1 as [|r0 [|p s2]]; try discriminate.
  destruct Hr1 as [Hr1 | [b' Hr1]]; [discriminate|].
  injection Hr1 as -> <-.
  destruct (char_eqb p lparen) eqn:Ep; [|discriminate].
  apply char_eqb_eq in Ep; subst p.
  destruct (take_until rparen s2) as [u r2] eqn:T2.
  destruct (take_until_spec _ _ _ _ T2) as (-> & Hu & Hr2).
  destruct u as [|u0 u]; [discriminate|].
  destruct r2 as [|r0 r2]; [discriminate|].
  destruct Hr2 as [Hr2 | [b'' Hr2]]; [discriminate|].
  injection Hr2 as -> <-.
  intros H. injection H as <- <- <-.
  split.
  - cbn [app]. rewrite <- !app_assoc. cbn [app]. rewrite <- !app_assoc.
    reflexivity.
  - rewrite Ht, Hu. reflexivity.
Qed.

Lemma match_link_intro (text url rest : str) :
  link_groups text url = true ->
  match_link (link_source text url ++ rest) = Some (text, url, rest).
Proof.
  unfold link_groups, link_source. intros H.
  repeat (apply andb_true_iff in H; destruct H as [H ?]).
  cbn [app match_link]. rewrite char_eqb_refl.
  rewrite <- !app_assoc. cbn [app]. rewrite <- !app_assoc. cbn [app].
  rewrite take_until_app by assumption.
  destruct text as [|t0 text]; [discriminate|].
  rewrite char_eqb_refl.
  rewrite take_until_app by assumption.
  destruct url as [|u0 url]; [discriminate|].
  reflexivity.
Qed.

Lemma match_link_other (c : char) (s : str) :
  char_eqb c lbrack = false -> match_link (c :: s) = None.
Proof. intros H. cbn [match_link]. now rewrite H. Qed.

Lemma match_link_shorter (s text url rest : str) :
  match_link s = Some (text, url, rest) -> (length rest < length s)%nat.
Proof.
  intros H. apply match_link_inv in H as [-> _].
  unfold link_source. rewrite !length_app. cbn. lia.
Qed.

(** The number of steps does not matter once it covers the string. *)
Lemma re_sub_links_aux_enough (n m : nat) (s : str) :
  (length s <= n)%nat -> (length s <= m)%nat ->
  re_sub_links_aux n s = re_sub_links_aux m s.
Proof.
  revert m s. induction n as [|n IH]; intros m s Hn Hm.
  - destruct s; [|cbn [length] in Hn; lia]. now destruct m.
  - destruct s as [|c s]; [now destruct m|].
    destruct m as [|m]; [cbn [length] in Hm; lia|].
    cbn [re_sub_links_aux].
    destruct (match_link (c :: s)) as [[[text url] rest]|] eqn:M.
    + apply match_link_shorter in M. cbn [length] in *.
      f_equal. apply IH; lia.
    + cbn [length] in *. f_equal. apply IH; lia.
Qed.

Lemma re_sub_links_nil : re_sub_links [] = [].
Proof. reflexivity. Qed.

Lemma re_sub_links_match (s text url rest : str) :
  match_link s = Some (text, url, rest) ->
  re_sub_links s = anchor text url ++ re_sub_links rest.
Proof.
  intros M. pose proof (match_link_shorter _ _ _ _ M) as L.
  unfold re_sub_links. destruct s as [|c s]; [discriminate|].
  cbn [length re_sub_links_aux]. rewrite M. f_equal.
  apply re_sub_links_aux_enough; cbn [length] in L; lia.
Qed.

Lemma re_sub_links_skip (c : char) (s : str) :
  match_link (c :: s) = None ->
  re_sub_links (c :: s) = c :: re_sub_links s.
Proof.
  intros M. unfold re_sub_links. cbn [length re_sub_links_aux].
  now rewrite M.
Qed.

(** The substitution goes through the string the way the matches cut it:
    an induction principle. *)
Lemma re_sub_links_ind (P : str -> Prop) :
  P [] ->
  (forall text url rest,
      link_groups text url = true -> P rest ->
      P (link_source text url ++ rest)) ->
  (forall c s, match_link (c :: s) = None -> P s -> P (c :: s)) ->
  forall s, P s.
Proof.
  intros Hnil Hmatch Hskip s.
  remember (length s) as n eqn:Hn.
  revert s Hn. induction n as [n IH] using lt_wf_ind. intros s Hn.
  destruct s as [|c s]; [exact Hnil|].
  destruct (match_link (c :: s)) as [[[text url] rest]|] eqn:M.
  - pose proof (match_link_shorter _ _ _ _ M) as L.
    destruct (match_link_inv _ _ _ _ M) as [E G]. rewrite E.
    apply Hmatch; [exact G|]. apply (IH (length rest)); [lia | reflexivity].
  - apply Hskip; [exact M|].
    apply (IH (length s)); [cbn [length] in Hn; lia | reflexivity].
Qed.

Lemma re_sub_links_link (text url rest : str) :
  link_groups text url = true ->
  re_sub_links (link_source text url ++ rest) = anchor text url ++ re_sub_links rest.
Proof. intros G. apply re_sub_links_match, match_link_intro, G. Qed.

Lemma re_sub_links_before (before s : str) :
  no_char lbrack before = true ->
  re_sub_links (before ++ s) = before ++ re_sub_links s.
Proof.
  intros H. induction before as [|c before IH]; [reflexivity|].
  rewrite no_char_cons in H.
  apply andb_true_iff in H as [Hc Hb]. apply negb_true_iff in Hc.
  cbn [app]. rewrite re_sub_links_skip by now apply match_link_other.
  now rewrite IH.
Qed.

(** Every link of the line is rewritten, however many there are. *)
Lemma re_sub_links_all (segments : list (str * str * str)) (rest : str) :
  List.forallb segment_ok segments = true ->
  re_sub_links (with_links segments rest) = with_anchors segments (re_sub_links rest).
Proof.
  induction segments as [|[[before text] url] segments IH]; intros H;
    [reflexivity|].
  cbn in H. apply andb_true_iff in H as [H Hs].
  apply andb_true_iff in H as [Hb Hg].
  cbn [with_links with_anchors].
  rewrite re_sub_links_before by exact Hb.
  rewrite re_sub_links_link by exact Hg.
  now rewrite IH.
Qed.

(** Text in which no match starts is passed over, whatever it holds. *)
Lemma re_sub_links_no_start (before following : str) :
  no_link_start before following = true ->
  re_sub_links (before ++ following) = before ++ re_sub_links following.
Proof.
  induction before as [|c before IH]; intros H; [reflexivity|].
  cbn [no_link_start] in H.
  destruct (match_link ((c :: before) ++ following)) eqn:M; [discriminate|].
  cbn [app] in *. rewrite (re_sub_links_skip _ _ M). now rewrite (IH H).
Qed.

Lemma re_sub_links_found (segments : list (str * str * str)) (rest : str) :
  links_found segments rest = true ->
  re_sub_links (with_links segments rest) = with_anchors segments (re_sub_links rest).
Proof.
  induction segments as [|[[before text] url] segments IH]; intros H;
    [reflexivity|].
  cbn [links_found] in H. apply andb_true_iff in H as [H Hs].
  apply andb_true_iff in H as [Hb Hg].
  cbn [with_links with_anchors].
  rewrite (re_sub_links_no_start _ _ Hb).
  rewrite re_sub_links_link by exact Hg.
  now rewrite (IH Hs).
Qed.

Lemma no_link_start_no_lbrack (before following : str) :
  no_char lbrack before = true -> no_link_start before following = true.
Proof.
  induction before as [|c before IH]; intros H; [reflexivity|].
  rewrite no_char_cons in H.
  apply andb_true_iff in H as [Hc Hb]. apply negb_true_iff in Hc.
  cbn [no_link_start app]. rewrite (match_link_other c _ Hc). now apply IH.
Qed.

(** Links with no [[] in the text before them are among the cuts that
    the scan finds. *)
Lemma segments_ok_found (segments : list (str * str * str)) (rest : str) :
  List.forallb segment_ok segments = true -> links_found segments rest = true.
Proof.
  induction segments as [|[[before text] url] segments IH]; intros H;
    [reflexivity|].
  cbn [forallb segment_ok] in H. apply andb_true_iff in H as [H Hs].
  apply andb_true_iff in H as [Hb Hg].
  cbn [links_found]. rewrite (no_link_start_no_lbrack _ _ Hb), Hg.
  now rewrite (IH Hs).
Qed.

Lemma match_link_iff (s text url tail : str) :
  match_link s = Some (text, url, tail) <->
  s = link_source text url ++ tail /\ link_groups text url = true.
Proof.
  split.
  - apply match_link_inv.
  - intros [-> G]. now apply match_link_intro.
Qed.

(** Every string is cut by the scan into the links it finds, the text
    before each of them, and a rest in which no match starts. *)
Lemma links_decomposition (s : str) :
  exists (segments : list (str * str * str)) (rest : str),
    s = with_links segments rest /\
    links_found segments rest = true /\
    no_link_start rest [] = true.
Proof.
  induction s as [|text url tail G IH|c s M IH] using re_sub_links_ind.
  - exists [], []. repeat split.
  - destruct IH as (segments & rest & -> & Hf & Hr).
    exists (([], text, url) :: segments), rest.
    cbn [with_links links_found no_link_start app]. now rewrite G, Hf.
  - destruct IH as (segments & rest & -> & Hf & Hr).
    destruct segments as [|[[before text] url] segments].
    + exists [], (c :: rest). cbn [with_links links_found] in *.
      repeat split. cbn [no_link_start]. rewrite app_nil_r. now rewrite M.
    + exists ((c :: before, text, url) :: segments), rest.
      cbn [with_links links_found] in *. split; [reflexivity|]. split; [|exact Hr].
      apply andb_true_iff in Hf as [Hf Hs]. apply andb_true_iff in Hf as [Hb Hg].
      cbn [no_link_start app]. cbn [app] in M. now rewrite M, Hb, Hg, Hs.
Qed.

(** C7.  In the [else] branch the substitution of the links is global.
    A match of the pattern is a link with a non-empty text free of []]
    and a non-empty address free of [)].  The scan goes through the line
    (after the emphasis replacements) from left to right: where a match
    starts it is rewritten to an anchor whose [href] is the captured
    address and whose visible text is the captured text, and the scan
    goes on after it; where none starts, the character is kept, be it a
    [[] that opens no link, and the scan goes on with the next one.  So
    however the line is cut into the links that the scan finds and the
    text around them (every line is cut so in some way; the text before
    a link may hold any character, and a text without [[] is always such
    a cut), every one of these links is rewritten, not only the first. *)
Theorem links_all_rewritten
    (lines : list str) (st : state) (k : nat) (line : str)
    (segments : list (str * str * str)) (rest : str) :
  i st = Z.of_nat k -> List.nth_error lines k = Some line ->
  in_code_block st = false -> is_regular line = true ->
  truthy (strip line) = true ->
  format_emphasis line = with_links segments rest ->
  links_found segments rest = true ->
  (forall s text url tail : str,
      match_link s = Some (text, url, tail) <->
      s = link_source text url ++ tail /\ link_groups text url = true) /\
  (forall text url tail : str,
      link_groups text url = true ->
      re_sub_links (link_source text url ++ tail) =
      anchor text url ++ re_sub_links tail) /\
  (forall (c : char) (s : str),
      match_link (c :: s) = None ->
      re_sub_links (c :: s) = c :: re_sub_links s) /\
  (forall s : str,
      exists (segments' : list (str * str * str)) (rest' : str),
        s = with_links segments' rest' /\
        links_found segments' rest' = true /\
        re_sub_links rest' = rest') /\
  (forall (segments' : list (str * str * str)) (rest' : str),
      List.forallb segment_ok segments' = true ->
      links_found segments' rest' = true) /\
  re_sub_links (format_emphasis line) =
    with_anchors segments (re_sub_links rest) /\
  loop_body lines st =
  Return {| i := i st + 1; in_code_block := false;
            result := result st ++
              [wrap_paragraph (with_anchors segments (re_sub_links rest))] |}.
Proof.
  intros Hi Hline Hc Hreg Hnb Hfmt Hok.
  assert (Hsub : re_sub_links (format_emphasis line) =
                 with_anchors segments (re_sub_links rest)).
  { rewrite Hfmt. now apply re_sub_links_found. }
  split; [exact match_link_iff|].
  split; [exact re_sub_links_link|].
  split; [exact re_sub_links_skip|].
  split.
  { intros s. destruct (links_decomposition s) as (segments' & rest' & Hs & Hf & Hr).
    exists segments', rest'. split; [exact Hs|]. split; [exact Hf|].
    pose proof (re_sub_links_no_start rest' [] Hr) as H.
    now rewrite !app_nil_r in H. }
  split; [exact segments_ok_found|].
  split; [exact Hsub|].
  rewrite (loop_body_regular lines st k line Hi Hline Hc Hreg).
  unfold regular_fragment, wrap_paragraph. now rewrite Hnb, Hsub.
Qed.

Lemma links_all_rewritten_witness :
  loop_body [lit "arr[0] see [docs](http://x) and [x](y)."] initial_state =
  Return {| i := 1; in_code_block := false;
            result := [lit "<p>arr[0] see <a href=" ++ [dquote] ++ lit "http://x" ++
                       [dquote] ++ lit ">docs</a> and <a href=" ++ [dquote] ++ lit "y" ++
                       [dquote] ++ lit ">x</a>.</p>"] |}.
Proof.
  exact (proj2 (proj2 (proj2 (proj2 (proj2 (proj2 (links_all_rewritten
           [lit "arr[0] see [docs](http://x) and [x](y)."] initial_state 0
           (lit "arr[0] see [docs](http://x) and [x](y).")
           [(lit "arr[0] see ", lit "docs", lit "http://x");
            (lit " and ", lit "x", lit "y")] (lit ".")
           eq_refl eq_refl eq_refl eq_refl eq_refl eq_refl eq_refl))))))).
Defined.

(* ================================================================== *)
(** * The replacements of the emphasis *)
(* ================================================================== *)

Lemma replace_first_unfold (old new s : str) :
  replace_first old new s =
  if startswith old s then new ++ List.skipn (length old) s
  else match s with
       | [] => []
       | c :: s' => c :: replace_first old new s'
       end.
Proof. now destruct s. Qed.

Lemma skipn_length_app {A} (a b : list A) : List.skipn (length a) (a ++ b) = b.
Proof. induction a; [reflexivity | exact IHa]. Qed.

(** The leftmost occurrence is the one replaced. *)
Lemma replace_first_here (old new r : str) :
  replace_first old new (old ++ r) = new ++ r.
Proof.
  rewrite replace_first_unfold, startswith_app. now rewrite skipn_length_app.
Qed.

(** A stretch without the first character of [old] is passed over. *)
Lemma replace_first_skip (h : char) (o new a s : str) :
  no_char h a = true ->
  replace_first (h :: o) new (a ++ s) = a ++ replace_first (h :: o) new s.
Proof.
  intros H. induction a as [|c a IH]; [reflexivity|].
  rewrite no_char_cons in H. apply andb_true_iff in H as [Hc Ha].
  apply negb_true_iff in Hc.
  cbn [app]. rewrite replace_first_unfold. cbn [startswith].
  unfold char_eqb in *. rewrite N.eqb_sym, Hc. cbn [andb].
  now rewrite IH.
Qed.

Lemma replace_first_none (h : char) (o new a : str) :
  no_char h a = true -> replace_first (h :: o) new a = a.
Proof.
  intros H. rewrite <- (app_nil_r a) at 1.
  rewrite replace_first_skip by exact H. cbn. apply app_nil_r.
Qed.

Lemma format_emphasis_skip (a s : str) :
  no_char star a = true -> format_emphasis (a ++ s) = a ++ format_emphasis s.
Proof.
  intros H. unfold format_emphasis. eval_lits.
  now rewrite !(replace_first_skip _ _ _ a _ H).
Qed.

Lemma format_emphasis_no_star (line : str) :
  no_char star line = true -> format_emphasis line = line.
Proof.
  intros H. unfold format_emphasis. eval_lits.
  now rewrite !(replace_first_none _ _ _ line H).
Qed.

(* ================================================================== *)
(** * Headers *)
(* ================================================================== *)

Lemma hashes_no_star (n : nat) : no_char star (hashes n) = true.
Proof. induction n; [reflexivity | exact IHn]. Qed.

Lemma hashes_no_lbrack (n : nat) : no_char lbrack (hashes n) = true.
Proof. induction n; [reflexivity | exact IHn]. Qed.

Lemma line_output_header (prev next : option str) (n : nat) (text : str) :
  (1 <= n <= 4)%nat ->
  line_output prev (hashes n ++ 32%N :: text) next false =
  ([heading (heading_level n) text], false).
Proof.
  intros Hn.
  assert (n = 1 \/ n = 2 \/ n = 3 \/ n = 4)%nat as [-> | [-> | [-> | ->]]] by lia;
    reflexivity.
Qed.

Lemma five_hashes_regular (n : nat) (rest : str) :
  is_regular (hashes (5 + n) ++ rest) = true.
Proof. reflexivity. Qed.

(** C5, as the specification states it, fails on its last part: a line
    with five leading [#] that holds a block tag is emitted as it is, not
    wrapped as a paragraph. *)
Lemma five_hashes_not_always_paragraph :
  ~ (exists body : str,
       simple_markdown_to_html (fuel_for (lit "##### <h1>")) (lit "##### <h1>") =
       Return (lit "<p>" ++ body ++ lit "</p>")).
Proof.
  intros (body & H). vm_compute in H. discriminate.
Qed.

(** C5, amended.  Outside a code block, a line that starts with one to
    four [#] and a space becomes the heading of that level, whose text is
    the line without the marker and the space.  A line with five or more
    leading [#] is not a header: it takes the [else] branch, keeps its
    [#] characters, and is wrapped as a paragraph unless its formatted
    text holds one of the block tags, in which case it is emitted
    unwrapped. *)
Theorem headers_one_to_four
    (lines : list str) (st : state) (k : nat) (line : str) :
  i st = Z.of_nat k -> List.nth_error lines k = Some line ->
  in_code_block st = false ->
  (forall (n : nat) (text : str),
      (1 <= n <= 4)%nat -> line = hashes n ++ 32%N :: text ->
      loop_body lines st =
      Return {| i := i st + 1; in_code_block := false;
                result := result st ++ [heading (heading_level n) text] |}) /\
  (forall (n : nat) (rest : str),
      (5 <= n)%nat -> line = hashes n ++ rest ->
      is_regular line = true /\
      re_sub_links (format_emphasis line) =
        hashes n ++ re_sub_links (format_emphasis rest) /\
      loop_body lines st =
      Return {| i := i st + 1; in_code_block := false;
                result := result st ++
                  [wrap_paragraph (hashes n ++ re_sub_links (format_emphasis rest))] |}).
Proof.
  intros Hi Hline Hc. split.
  - intros n text Hn ->.
    rewrite (loop_body_view lines st k _ Hi Hline). cbv zeta.
    now rewrite Hc, line_output_header.
  - intros n rest Hn ->.
    assert (Hreg : is_regular (hashes n ++ rest) = true).
    { replace n with (5 + (n - 5))%nat by lia. apply five_hashes_regular. }
    assert (Hfmt : re_sub_links (format_emphasis (hashes n ++ rest)) =
                   hashes n ++ re_sub_links (format_emphasis rest)).
    { rewrite format_emphasis_skip by apply hashes_no_star.
      now rewrite re_sub_links_before by apply hashes_no_lbrack. }
    split; [exact Hreg|]. split; [exact Hfmt|].
    rewrite (loop_body_regular lines st k _ Hi Hline Hc Hreg).
    rewrite (regular_fragment_nonblank _ 35%N).
    + now rewrite Hfmt.
    + destruct n as [|n]; [lia|]. now left.
    + reflexivity.
Qed.

Lemma headers_one_to_four_witness :
  loop_body [lit "### Title"] initial_state =
  Return {| i := 1; in_code_block := false; result := [lit "<h3>Title</h3>"] |} /\
  loop_body [lit "##### X"] initial_state =
  Return {| i := 1; in_code_block := false; result := [lit "<p>##### X</p>"] |}.
Proof.
  split.
  - exact (proj1 (headers_one_to_four [lit "### Title"] initial_state 0
                    (lit "### Title") eq_refl eq_refl eq_refl)
             3%nat (lit "Title") (conj (le_S _ _ (le_S _ _ (le_n 1))) (le_S _ _ (le_n 3)))
             eq_refl).
  - exact (proj2 (proj2 (proj2 (headers_one_to_four [lit "##### X"] initial_state 0
                    (lit "##### X") eq_refl eq_refl eq_refl)
             5%nat (lit " X") (le_n 5) eq_refl))).
Defined.

(* ================================================================== *)
(** * Ordered lists *)
(* ================================================================== *)

Lemma ordered_shape_iff (line : str) :
  ordered_shape line = true <->
  exists (d : char) (text : str), line = d :: lit ". " ++ text /\ isdigit d = true.
Proof.
  unfold ordered_shape. split.
  - destruct line as [|d r]; [discriminate|]. intros H.
    apply andb_true_iff in H as [Hd Hr].
    apply startswith_inv in Hr as [text ->]. now exists d, text.
  - intros (d & text & -> & Hd). now rewrite Hd, startswith_app.
Qed.

(** A line that starts with a digit is no fence delimiter, no header and
    no unordered item. *)
Lemma digit_reaches_ordered_test (d : char) (r : str) :
  isdigit d = true -> reaches_ordered_test (d :: r) = true.
Proof.
  intros Hd.
  assert (H1 : char_eqb 96%N d = false).
  { destruct (char_eqb 96%N d) eqn:E; [|reflexivity].
    apply char_eqb_eq in E; subst d. vm_compute in Hd. discriminate. }
  assert (H2 : char_eqb 35%N d = false).
  { destruct (char_eqb 35%N d) eqn:E; [|reflexivity].
    apply char_eqb_eq in E; subst d. vm_compute in Hd. discriminate. }
  assert (H3 : char_eqb 45%N d = false).
  { destruct (char_eqb 45%N d) eqn:E; [|reflexivity].
    apply char_eqb_eq in E; subst d. vm_compute in Hd. discriminate. }
  unfold reaches_ordered_test, is_unordered_item, fence. eval_lits.
  cbn [startswith]. now rewrite H1, H2, H3.
Qed.

(** The item text starts after the first dot and the space, and the first
    dot is the one after the digit. *)
Lemma ordered_item_text (d : char) (text : str) :
  isdigit d = true ->
  slice_from (d :: lit ". " ++ text) (find (lit ".") (d :: lit ". " ++ text) + 2) = text.
Proof.
  intros Hd.
  assert (H : char_eqb 46%N d = false).
  { destruct (char_eqb 46%N d) eqn:E; [|reflexivity].
    apply char_eqb_eq in E; subst d. vm_compute in Hd. discriminate. }
  eval_lits. cbn [app find startswith]. rewrite H. reflexivity.
Qed.

Lemma line_output_ordered (prev next : option str) (d : char) (text : str) :
  isdigit d = true ->
  line_output prev (d :: lit ". " ++ text) next false =
  (ordered_fragments prev text next, false).
Proof.
  intros Hd.
  pose proof (digit_reaches_ordered_test d (lit ". " ++ text) Hd) as Hr.
  assert (Ho : ordered_shape (d :: lit ". " ++ text) = true).
  { apply ordered_shape_iff. now exists d, text. }
  unfold reaches_ordered_test in Hr.
  repeat (apply andb_true_iff in Hr; destruct Hr as [Hr ?]).
  repeat match goal with
         | E : negb ?b = true |- _ => apply negb_true_iff in E
         end.
  unfold line_output, block_output, ordered_fragments.
  rewrite Hr, H3, H2, H1, H0, H, Ho.
  now rewrite ordered_item_text.
Qed.

(** C6, as the specification states it, fails: the test of the source is
    [str.isdigit], which also accepts digits outside ASCII.  The line
    made of the superscript two (U+00B2), a dot, a space and [x] does not
    start with an ASCII digit, and it is converted as an ordered item. *)
Lemma superscript_two_is_ordered_item :
  ascii_ordered_shape ([178%N] ++ lit ". x") = false /\
  is_ordered_item ([178%N] ++ lit ". x") = Return true /\
  simple_markdown_to_html (fuel_for ([178%N] ++ lit ". x")) ([178%N] ++ lit ". x") =
  Return (lit "<ol>" ++ [newline] ++ lit "<li>x</li>" ++ [newline] ++ lit "</ol>").
Proof. repeat split; vm_compute; reflexivity. Qed.

(** C6, amended.  A line met outside a code block that is not a fence
    delimiter, a header or an unordered item is an ordered item exactly
    when its first character is a digit in the sense of [str.isdigit]
    (every ASCII digit is one, and so are other Unicode digits) and what
    follows the first character starts with a dot and a space.  The test
    never raises.  For such a line the numeral, the dot and the space are
    stripped: the item text is what follows the first dot and the space.
    Any other such line is regular text. *)
Theorem ordered_item_classification
    (lines : list str) (st : state) (k : nat) (line : str) :
  i st = Z.of_nat k -> List.nth_error lines k = Some line ->
  in_code_block st = false -> reaches_ordered_test line = true ->
  is_ordered_item line = Return (ordered_shape line) /\
  (ordered_shape line = true <->
   exists (d : char) (text : str), line = d :: lit ". " ++ text /\ isdigit d = true) /\
  (forall d : char, is_ascii_digit d = true -> isdigit d = true) /\
  (forall (d : char) (text : str),
      line = d :: lit ". " ++ text -> isdigit d = true ->
      find (lit ".") line = 1%Z /\
      loop_body lines st =
      Return {| i := i st + 1; in_code_block := false;
                result := result st ++
                  ordered_fragments (prev_line lines k) text (next_line lines k) |}) /\
  (ordered_shape line = false ->
   loop_body lines st =
   Return {| i := i st + 1; in_code_block := false;
             result := result st ++ [regular_fragment line] |}).
Proof.
  intros Hi Hline Hc Hreach.
  split; [apply is_ordered_item_shape|].
  split; [apply ordered_shape_iff|].
  split.
  { intros d Hd. apply isdigit_ascii. unfold is_ascii_digit in Hd.
    apply andb_true_iff in Hd as [H1 H2].
    apply N.leb_le in H1. apply N.leb_le in H2. lia. }
  split.
  - intros d text -> Hd. split.
    + assert (H : char_eqb 46%N d = false).
      { destruct (char_eqb 46%N d) eqn:E; [|reflexivity].
        apply char_eqb_eq in E; subst d. vm_compute in Hd. discriminate. }
      eval_lits. cbn [app find startswith]. rewrite H. reflexivity.
    + rewrite (loop_body_view lines st k _ Hi Hline). cbv zeta.
      now rewrite Hc, line_output_ordered.
  - intros Hno. apply (loop_body_regular lines st k line Hi Hline Hc).
    unfold is_regular. now rewrite Hreach, Hno.
Qed.

Lemma ordered_item_classification_witness :
  loop_body [lit "1. first"; lit "2. second"; lit "10. tenth"]
    {| i := 1; in_code_block := false; result := [lit "<ol>"; lit "<li>first</li>"] |} =
  Return {| i := 2; in_code_block := false;
            result := [lit "<ol>"; lit "<li>first</li>"; lit "<li>second</li>";
                       lit "</ol>"] |} /\
  loop_body [lit "1. first"; lit "2. second"; lit "10. tenth"]
    {| i := 2; in_code_block := false; result := [] |} =
  Return {| i := 3; in_code_block := false; result := [lit "<p>10. tenth</p>"] |}.
Proof.
  split.
  - exact (proj2 (proj1 (proj2 (proj2 (proj2 (ordered_item_classification
             [lit "1. first"; lit "2. second"; lit "10. tenth"]
             {| i := 1; in_code_block := false;
                result := [lit "<ol>"; lit "<li>first</li>"] |}
             1 (lit "2. second") eq_refl eq_refl eq_refl eq_refl))))
             50%N (lit "second") eq_refl eq_refl)).
  - exact (proj2 (proj2 (proj2 (proj2 (ordered_item_classification
             [lit "1. first"; lit "2. second"; lit "10. tenth"]
             {| i := 2; in_code_block := false; result := [] |}
             2 (lit "10. tenth") eq_refl eq_refl eq_refl eq_refl)))) eq_refl).
Defined.

(* ================================================================== *)
(** * Bold spans *)
(* ================================================================== *)

Lemma star_not_space : isspace star = false.
Proof. reflexivity. Qed.

(** The four replacements on a line with two bold spans. *)
Lemma format_emphasis_two_bold (a b c d e : str) :
  no_char star a = true -> no_char star b = true -> no_char star c = true ->
  format_emphasis
    (a ++ lit "**" ++ b ++ lit "**" ++ c ++ lit "**" ++ d ++ lit "**" ++ e) =
  a ++ lit "<strong>" ++ b ++ lit "</strong>" ++ c ++ lit "<em></em>" ++
  d ++ lit "**" ++ e.
Proof.
  intros Ha Hb Hc.
  change (lit "<em></em>") with (lit "<em>" ++ lit "</em>").
  set (R := d ++ lit "**" ++ e).
  change (c ++ lit "**" ++ R) with (c ++ [star] ++ [star] ++ R).
  unfold format_emphasis.
  set (S1 := lit "<strong>"). set (S2 := lit "</strong>").
  set (E1 := lit "<em>"). set (E2 := lit "</em>").
  assert (HS1 : no_char star S1 = true) by reflexivity.
  assert (HS2 : no_char star S2 = true) by reflexivity.
  assert (HE1 : no_char star E1 = true) by reflexivity.
  change (lit "**") with [star; star]. change (lit "*") with [star].
  rewrite (replace_first_skip star [star] S1 a _ Ha), replace_first_here.
  rewrite (replace_first_skip star [star] S2 a _ Ha),
          (replace_first_skip star [star] S2 S1 _ HS1),
          (replace_first_skip star [star] S2 b _ Hb), replace_first_here.
  rewrite (replace_first_skip star [] E1 a _ Ha),
          (replace_first_skip star [] E1 S1 _ HS1),
          (replace_first_skip star [] E1 b _ Hb),
          (replace_first_skip star [] E1 S2 _ HS2),
          (replace_first_skip star [] E1 c _ Hc), replace_first_here.
  rewrite (replace_first_skip star [] E2 a _ Ha),
          (replace_first_skip star [] E2 S1 _ HS1),
          (replace_first_skip star [] E2 b _ Hb),
          (replace_first_skip star [] E2 S2 _ HS2),
          (replace_first_skip star [] E2 c _ Hc),
          (replace_first_skip star [] E2 E1 _ HE1), replace_first_here.
  now rewrite <- app_assoc.
Qed.

(** C1, as the specification states it, fails: on the line of the
    specification the output is not the one with the second pair left as
    it is. *)
Lemma second_bold_pair_not_literal :
  simple_markdown_to_html (fuel_for (lit "**bold** and **more**"))
    (lit "**bold** and **more**") <>
  Return (lit "<p><strong>bold</strong> and **more**</p>").
Proof. vm_compute. discriminate. Qed.

(** C1, amended.  On a regular line with two bold spans,
    [a**b**c**d**e] with no star in [a], [b] and [c], the bold
    replacements rewrite the first pair only, into an opening and a
    closing strong tag.  The italic replacements that follow then consume
    the two stars of the third delimiter, which becomes an empty emphasis
    element, and the fourth delimiter alone stays as literal characters;
    the links are substituted in what results. *)
Theorem first_bold_pair_only
    (lines : list str) (st : state) (k : nat) (line a b c d e : str) :
  i st = Z.of_nat k -> List.nth_error lines k = Some line ->
  in_code_block st = false -> is_regular line = true ->
  line = a ++ lit "**" ++ b ++ lit "**" ++ c ++ lit "**" ++ d ++ lit "**" ++ e ->
  no_char star a = true -> no_char star b = true -> no_char star c = true ->
  format_emphasis line =
    a ++ lit "<strong>" ++ b ++ lit "</strong>" ++ c ++ lit "<em></em>" ++
    d ++ lit "**" ++ e /\
  loop_body lines st =
  Return {| i := i st + 1; in_code_block := false;
            result := result st ++
              [wrap_paragraph
                 (re_sub_links
                    (a ++ lit "<strong>" ++ b ++ lit "</strong>" ++ c ++
                     lit "<em></em>" ++ d ++ lit "**" ++ e))] |}.
Proof.
  intros Hi Hline Hcode Hreg -> Ha Hb Hc.
  pose proof (format_emphasis_two_bold a b c d e Ha Hb Hc) as Hfmt.
  split; [exact Hfmt|].
  rewrite (loop_body_regular lines st k _ Hi Hline Hcode Hreg).
  rewrite (regular_fragment_nonblank _ star).
  - now rewrite Hfmt.
  - apply in_or_app. right. now left.
  - exact star_not_space.
Qed.

Lemma first_bold_pair_only_witness :
  loop_body [lit "**bold** and **more**"] initial_state =
  Return {| i := 1; in_code_block := false;
            result := [lit "<p><strong>bold</strong> and <em></em>more**</p>"] |}.
Proof.
  exact (proj2 (first_bold_pair_only
           [lit "**bold** and **more**"] initial_state 0
           (lit "**bold** and **more**") [] (lit "bold") (lit " and ") (lit "more") []
           eq_refl eq_refl eq_refl eq_refl eq_refl eq_refl eq_refl eq_refl)).
Defined.

(* ================================================================== *)
(** * Counting the emphasis tags *)
(* ================================================================== *)

(** What comes after [x] does not matter to a prefix test when it starts
    with a character that the tested word does not hold. *)
Lemma startswith_app_other (v x y : str) (c : char) :
  no_char c v = true ->
  startswith v (x ++ c :: y) = startswith v x.
Proof.
  revert x. induction v as [|b v IH]; intros x H; [reflexivity|].
  rewrite no_char_cons in H. apply andb_true_iff in H as [Hb Hv].
  apply negb_true_iff in Hb.
  destruct x as [|d x]; cbn [app startswith].
  - now rewrite Hb.
  - now rewrite IH.
Qed.

(** No occurrence of [w] lies across a place where the right part starts
    with a character that occurs in [w] at its first position at most. *)
Lemma count_sub_app_other (a : char) (v x y : str) (c : char) :
  no_char c v = true ->
  count_sub (a :: v) (x ++ c :: y) =
  (count_sub (a :: v) x + count_sub (a :: v) (c :: y))%nat.
Proof.
  intros H. remember (count_sub (a :: v) (c :: y)) as tail eqn:Htail.
  induction x as [|d x IH]; [now rewrite Htail|].
  cbn [app]. cbn [count_sub]. rewrite IH.
  cbn [startswith]. rewrite (startswith_app_other v x y c H). lia.
Qed.

(** The substitution of the links keeps a prefix made of characters other
    than [[] and [<]. *)
Lemma startswith_re_sub_links (v s : str) :
  no_char lbrack v = true -> no_char lt_sign v = true ->
  startswith v (re_sub_links s) = startswith v s.
Proof.
  revert s. induction v as [|x v IH]; intros s Hb Hl; [reflexivity|].
  rewrite no_char_cons in Hb, Hl.
  apply andb_true_iff in Hb as [Hxb Hvb]. apply negb_true_iff in Hxb.
  apply andb_true_iff in Hl as [Hxl Hvl]. apply negb_true_iff in Hxl.
  destruct s as [|c s]; [reflexivity|].
  destruct (match_link (c :: s)) as [[[text url] rest]|] eqn:M.
  - rewrite (re_sub_links_match _ _ _ _ M).
    apply match_link_inv in M as [E _]. rewrite E.
    unfold anchor, link_source. eval_lits. cbn [app startswith].
    change 60%N with lt_sign. now rewrite Hxb, Hxl.
  - rewrite (re_sub_links_skip _ _ M). cbn [startswith].
    now rewrite IH.
Qed.

Lemma count_sub_cons (w : str) (c : char) (s : str) :
  count_sub w (c :: s) =
  ((if startswith w (c :: s) then 1 else 0) + count_sub w s)%nat.
Proof. reflexivity. Qed.

Lemma startswith_cons (a : char) (v : str) (c : char) (s : str) :
  startswith (a :: v) (c :: s) = char_eqb a c && startswith v s.
Proof. reflexivity. Qed.

(** The substitution of the links neither adds nor removes an emphasis
    tag. *)
Lemma count_sub_re_sub_links (w s : str) :
  w = em_open \/ w = em_close ->
  count_sub w (re_sub_links s) = count_sub w s.
Proof.
  intros [-> | ->]; unfold em_open, em_close; eval_lits;
    (induction s as [|text url rest G IH|c s M IH] using re_sub_links_ind;
     [ reflexivity
     | rewrite re_sub_links_link by exact G;
       unfold anchor, link_source; rewrite <- !app_assoc;
       unfold lbrack, rbrack, lparen, rparen, dquote; eval_lits; count_step;
       rewrite !count_sub_app_other by reflexivity; count_step;
       rewrite !count_sub_app_other by reflexivity; count_step;
       rewrite IH; lia
     | rewrite (re_sub_links_skip _ _ M);
       rewrite !count_sub_cons, !startswith_cons, IH;
       rewrite startswith_re_sub_links by reflexivity; reflexivity ]).
Qed.

Lemma count_sub_wrap_paragraph (w f : str) :
  w = em_open \/ w = em_close ->
  count_sub w (wrap_paragraph f) = count_sub w f.
Proof.
  intros Hw. unfold wrap_paragraph.
  destruct (has_block_tag f); [reflexivity|].
  destruct Hw as [-> | ->]; unfold em_open, em_close; eval_lits; count_step;
    rewrite !count_sub_app_other by reflexivity; count_step; lia.
Qed.

(** The replacements on a line with one star: the star becomes an opening
    emphasis tag and nothing else changes. *)
Lemma format_emphasis_one_star (pre post : str) :
  no_char star pre = true -> no_char star post = true ->
  format_emphasis (pre ++ [star] ++ post) = pre ++ lit "<em>" ++ post.
Proof.
  intros Hpre Hpost. unfold format_emphasis.
  change (lit "**") with [star; star]. change (lit "*") with [star].
  assert (H1 : forall new, replace_first [star; star] new (pre ++ [star] ++ post) =
                           pre ++ [star] ++ post).
  { intros new. rewrite (replace_first_skip star [star] new pre _ Hpre).
    f_equal. rewrite replace_first_unfold.
    destruct post as [|p post].
    - reflexivity.
    - rewrite no_char_cons in Hpost. apply andb_true_iff in Hpost as [Hp Hpost].
      apply negb_true_iff in Hp. cbn [app startswith].
      unfold char_eqb in *. rewrite (N.eqb_sym star p), Hp, N.eqb_refl. cbn [andb].
      f_equal. apply (replace_first_none star [star] new (p :: post)).
      rewrite no_char_cons. unfold char_eqb. now rewrite Hp, Hpost. }
  rewrite !H1.
  rewrite (replace_first_skip star [] _ pre _ Hpre), replace_first_here.
  assert (HE : no_char star (lit "<em>") = true) by reflexivity.
  rewrite (replace_first_skip star [] _ pre _ Hpre),
          (replace_first_skip star [] _ (lit "<em>") _ HE).
  now rewrite (replace_first_none star [] _ post Hpost).
Qed.

(** C10, as it is stated, fails: a line with one star may itself hold
    the closing tag as literal text.  The line [* </em>] is regular, not
    blank, and holds exactly one star; its fragment is the paragraph
    [<p><em> </em></p>], in which the opening tag that the star became is
    followed by a closing tag: the one opening tag of the output has a
    partner. *)
Lemma single_star_with_literal_close :
  is_regular (lit "* </em>") = true /\
  truthy (strip (lit "* </em>")) = true /\
  lit "* </em>" = [] ++ [star] ++ lit " </em>" /\
  no_char star [] = true /\ no_char star (lit " </em>") = true /\
  loop_body [lit "* </em>"] initial_state =
    Return {| i := 1; in_code_block := false;
              result := [lit "<p>" ++ em_open ++ lit " " ++ em_close ++ lit "</p>"] |} /\
  simple_markdown_to_html (fuel_for (lit "* </em>")) (lit "* </em>") =
    Return (lit "<p>" ++ em_open ++ lit " " ++ em_close ++ lit "</p>") /\
  count_sub em_open (lit "<p>" ++ em_open ++ lit " " ++ em_close ++ lit "</p>") = 1%nat /\
  count_sub em_close (lit "<p>" ++ em_open ++ lit " " ++ em_close ++ lit "</p>") = 1%nat.
Proof. repeat split; vm_compute; reflexivity. Qed.

(** C10, amended.  On a regular line with exactly one star (and so with
    no pair of stars), outside a code block, the star becomes an opening
    emphasis tag and the replacements produce no closing tag: the
    fragment of the line holds one opening tag more than the line and
    exactly as many closing tags as the line.  So the opening tag has no
    partner unless the line itself holds a closing tag as text.  (Such a
    line is never blank.) *)
Theorem single_star_unpaired_em
    (lines : list str) (st : state) (k : nat) (line pre post : str) :
  i st = Z.of_nat k -> List.nth_error lines k = Some line ->
  in_code_block st = false -> is_regular line = true ->
  line = pre ++ [star] ++ post ->
  no_char star pre = true -> no_char star post = true ->
  format_emphasis line = pre ++ lit "<em>" ++ post /\
  exists fragment : str,
    loop_body lines st =
    Return {| i := i st + 1; in_code_block := false;
              result := result st ++ [fragment] |} /\
    fragment = wrap_paragraph (re_sub_links (pre ++ lit "<em>" ++ post)) /\
    count_sub (lit "<em>") fragment = S (count_sub (lit "<em>") line) /\
    count_sub (lit "</em>") fragment = count_sub (lit "</em>") line.
Proof.
  intros Hi Hline Hcode Hreg -> Hpre Hpost.
  pose proof (format_emphasis_one_star pre post Hpre Hpost) as Hfmt.
  split; [exact Hfmt|].
  eexists. split; [|split; [reflexivity|]].
  - rewrite (loop_body_regular lines st k _ Hi Hline Hcode Hreg).
    rewrite (regular_fragment_nonblank _ star).
    + now rewrite Hfmt.
    + apply in_or_app. right. now left.
    + exact star_not_space.
  - split.
    + rewrite (count_sub_wrap_paragraph em_open) by now left.
      rewrite (count_sub_re_sub_links em_open) by now left.
      unfold em_open, star. eval_lits. cbn [app].
      rewrite !count_sub_app_other by reflexivity. count_step. lia.
    + rewrite (count_sub_wrap_paragraph em_close) by now right.
      rewrite (count_sub_re_sub_links em_close) by now right.
      unfold em_close, star. eval_lits. cbn [app].
      rewrite !count_sub_app_other by reflexivity. count_step. lia.
Qed.

Lemma single_star_unpaired_em_witness :
  format_emphasis (lit "a * b") = lit "a <em> b" /\
  exists fragment : str,
    loop_body [lit "a * b"] initial_state =
    Return {| i := 1; in_code_block := false; result := [fragment] |} /\
    fragment = lit "<p>a <em> b</p>" /\
    count_sub (lit "<em>") fragment = 1%nat /\
    count_sub (lit "</em>") fragment = 0%nat.
Proof.
  exact (single_star_unpaired_em [lit "a * b"] initial_state 0
           (lit "a * b") (lit "a ") (lit " b")
           eq_refl eq_refl eq_refl eq_refl eq_refl eq_refl eq_refl).
Defined.

(* ================================================================== *)
(** * Runs of list items *)
(* ================================================================== *)

Lemma line_output_unordered (prev next : option str) (line : str) :
  is_unordered_item line = true ->
  line_output prev line next false =
  ((if holds is_unordered_item prev then [] else [lit "<ul>"]) ++
   [list_item (slice_from line 2)] ++
   (if holds is_unordered_item next then [] else [lit "</ul>"]), false).
Proof.
  intros H. pose proof H as H'. apply startswith_inv in H' as [r ->].
  unfold is_unordered_item in H.
  unfold line_output, block_output, is_unordered_item. rewrite H.
  reflexivity.
Qed.

Lemma line_output_kind (kind : list_kind) (prev next : option str) (line : str) :
  kind_test kind line = true ->
  line_output prev line next false =
  ((if holds (kind_test kind) prev then [] else [kind_open kind]) ++
   [kind_item kind line] ++
   (if holds (kind_test kind) next then [] else [kind_close kind]), false).
Proof.
  destruct kind; cbn [kind_test kind_open kind_close kind_item]; intros H.
  - now apply line_output_unordered.
  - apply ordered_shape_iff in H as (d & text & -> & Hd).
    rewrite (line_output_ordered prev next d text Hd).
    reflexivity.
Qed.

(** The two kinds of items exclude each other, so an item of one kind
    bounds a run of the other. *)
Lemma kinds_exclusive (line : str) :
  is_unordered_item line = true -> ordered_shape line = false.
Proof.
  intros H. apply startswith_inv in H as [r ->]. reflexivity.
Qed.

Lemma render_run (kind : list_kind) (run : list str) (prev after : option str) :
  run <> [] ->
  List.forallb (kind_test kind) run = true ->
  holds (kind_test kind) after = false ->
  render prev run after false =
  ((if holds (kind_test kind) prev then [] else [kind_open kind]) ++
   List.map (kind_item kind) run ++ [kind_close kind], false).
Proof.
  revert prev. induction run as [|l run IH]; intros prev Hne Hall Hafter;
    [congruence|].
  cbn [forallb] in Hall. apply andb_true_iff in Hall as [Hl Hrun].
  cbn [render]. rewrite (line_output_kind kind _ _ l Hl). cbn [fst snd].
  destruct run as [|l' run].
  - cbn [render map app fst snd]. rewrite Hafter.
    now rewrite app_nil_r.
  - rewrite IH by (congruence || assumption). cbn [fst snd holds].
    cbn [forallb] in Hrun. apply andb_true_iff in Hrun as [Hl' _].
    rewrite Hl, Hl'. cbn [app map].
    now rewrite <- !app_assoc.
Qed.

Lemma iterate_add (n m : nat) (lines : list str) (st : state) :
  iterate (n + m) lines st = st' <- iterate n lines st ;; iterate m lines st'.
Proof.
  revert st. induction n as [|n IH]; intros st; [reflexivity|].
  cbn [Nat.add iterate]. destruct (loop_body lines st); cbn [bind]; auto.
Qed.

Lemma maximal_run_inv (kind : list_kind) (pre run post : list str) :
  maximal_run kind pre run post = true ->
  run <> [] /\ List.forallb (kind_test kind) run = true /\
  holds (kind_test kind) (last_line pre) = false /\
  holds (kind_test kind) (List.hd_error post) = false.
Proof.
  unfold maximal_run. intros H.
  repeat (apply andb_true_iff in H; destruct H as [H ?]).
  repeat match goal with
         | E : negb ?b = true |- _ => apply negb_true_iff in E
         end.
  repeat split; try assumption. now destruct run.
Qed.

(** C2.  For every maximal run of adjacent lines that start with the
    unordered marker, met outside a code block, the passes over the run
    append exactly one list-open element, then one item element for each
    line of the run in their order, then exactly one list-close element;
    these fragments follow the output of the lines before the run and
    precede the output of the lines after it in the converted text.  The
    same holds for the runs of ordered items with their own wrapper, and
    since no line is an item of both kinds, a line of the other kind next
    to a run bounds it: runs never merge. *)
Theorem list_run_wrapped_once
    (kind : list_kind) (text : str) (pre run post : list str)
    (st1 : state) (extra : nat) :
  split newline text = pre ++ run ++ post ->
  maximal_run kind pre run post = true ->
  iterate (length pre) (split newline text) initial_state = Return st1 ->
  in_code_block st1 = false ->
  iterate (length run) (split newline text) st1 =
    Return {| i := i st1 + len run; in_code_block := false;
              result := result st1 ++ [kind_open kind] ++
                        List.map (kind_item kind) run ++ [kind_close kind] |} /\
  (exists later : list str,
     simple_markdown_to_html (fuel_for text + extra) text =
     Return (join [newline]
               (result st1 ++ [kind_open kind] ++
                List.map (kind_item kind) run ++ [kind_close kind] ++ later))) /\
  (forall line : str, is_unordered_item line = true -> ordered_shape line = false).
Proof.
  intros Hsplit Hmax Hpre Hcode.
  destruct (maximal_run_inv kind pre run post Hmax) as (Hne & Hall & Hprev & Hafter).
  set (lines := split newline text) in *.
  (* the state before the run *)
  assert (Hi1 : i st1 = len pre).
  { pose proof (iterate_render pre [] (run ++ post) initial_state eq_refl) as H.
    cbn [app] in H. rewrite <- Hsplit in H.
    rewrite Hpre in H. cbv zeta in H. injection H as ->. reflexivity. }
  (* the passes over the run *)
  assert (Hrun : iterate (length run) lines st1 =
                 Return {| i := i st1 + len run; in_code_block := false;
                           result := result st1 ++ [kind_open kind] ++
                             List.map (kind_item kind) run ++ [kind_close kind] |}).
  { rewrite Hsplit, (iterate_render run pre post st1 Hi1). cbv zeta.
    rewrite Hcode, (render_run kind run _ _ Hne Hall Hafter), Hprev.
    reflexivity. }
  split; [exact Hrun|]. split; [|exact kinds_exclusive].
  (* the whole conversion *)
  set (st2 := {| i := i st1 + len run; in_code_block := false;
                 result := result st1 ++ [kind_open kind] ++
                   List.map (kind_item kind) run ++ [kind_close kind] |}) in *.
  pose proof (iterate_render post (pre ++ run) [] st2) as Hpost.
  rewrite <- app_assoc, app_nil_r, <- Hsplit in Hpost.
  cbv zeta in Hpost.
  specialize (Hpost ltac:(cbn [i st2]; rewrite Hi1, len_app; reflexivity)).
  set (out := render (last_line (pre ++ run)) post (hd_error []) (in_code_block st2))
    in Hpost.
  exists (fst out ++ if snd out then [code_close] else []).
  unfold simple_markdown_to_html, final_state, convert_lines, fuel_for.
  fold lines.
  rewrite (while_loop_iterate lines (length lines))
    by (unfold len, initial_state; cbn [i]; lia).
  assert (Hlen : length lines = (length pre + (length run + length post))%nat).
  { rewrite Hsplit, !length_app. reflexivity. }
  rewrite Hlen, iterate_add, Hpre. cbn [bind].
  rewrite iterate_add, Hrun. cbn [bind]. rewrite Hpost. cbn [bind].
  unfold close_unclosed, append. cbn [in_code_block result st2].
  f_equal. f_equal.
  destruct (snd out); cbn [result]; rewrite <- ?app_assoc; cbn [app];
    rewrite ?app_nil_r; rewrite <- ?app_assoc; reflexivity.
Qed.

Lemma list_run_wrapped_once_witness :
  iterate 3 [lit "intro"; lit "- a"; lit "- b"; lit "- c"; lit "1. x"]
    {| i := 1; in_code_block := false; result := [lit "<p>intro</p>"] |} =
  Return {| i := 4; in_code_block := false;
            result := [lit "<p>intro</p>"; lit "<ul>"; lit "<li>a</li>";
                       lit "<li>b</li>"; lit "<li>c</li>"; lit "</ul>"] |}.
Proof.
  exact (proj1 (list_run_wrapped_once Unordered
           (lit "intro" ++ [newline] ++ lit "- a" ++ [newline] ++ lit "- b" ++
            [newline] ++ lit "- c" ++ [newline] ++ lit "1. x")
           [lit "intro"] [lit "- a"; lit "- b"; lit "- c"] [lit "1. x"]
           {| i := 1; in_code_block := false; result := [lit "<p>intro</p>"] |}
           0 eq_refl eq_refl eq_refl eq_refl)).
Defined.

(* ================================================================== *)
(** * Code blocks *)
(* ================================================================== *)

(** The neighbours of a line matter through the two list tests only. *)
Lemma line_output_ext (prev prev' next next' : option str) (l : str) (c : bool) :
  holds is_unordered_item prev = holds is_unordered_item prev' ->
  holds ordered_shape prev = holds ordered_shape prev' ->
  holds is_unordered_item next = holds is_unordered_item next' ->
  holds ordered_shape next = holds ordered_shape next' ->
  line_output prev l next c = line_output prev' l next' c.
Proof.
  intros H1 H2 H3 H4. unfold line_output, block_output.
  now rewrite H1, H2, H3, H4.
Qed.

Lemma render_ext (ls : list str) (prev prev' after after' : option str) (c : bool) :
  holds is_unordered_item prev = holds is_unordered_item prev' ->
  holds ordered_shape prev = holds ordered_shape prev' ->
  holds is_unordered_item after = holds is_unordered_item after' ->
  holds ordered_shape after = holds ordered_shape after' ->
  render prev ls after c = render prev' ls after' c.
Proof.
  revert prev prev' c. induction ls as [|l ls IH]; intros prev prev' c H1 H2 H3 H4;
    [reflexivity|].
  cbn [render].
  rewrite (line_output_ext prev prev'
             (match ls with [] => after | n :: _ => Some n end)
             (match ls with [] => after' | n :: _ => Some n end) l c H1 H2)
    by now destruct ls.
  now rewrite (IH (Some l) (Some l) _ eq_refl eq_refl H3 H4).
Qed.

Lemma fence_not_item (d : str) :
  startswith fence d = true ->
  is_unordered_item d = false /\ ordered_shape d = false.
Proof.
  intros H. apply startswith_inv in H as [r ->]. split; reflexivity.
Qed.

Lemma line_output_fence (prev next : option str) (d : str) (c : bool) :
  startswith fence d = true ->
  line_output prev d next c =
  ([if c then code_close else code_open (strip (slice_from d 3))], negb c).
Proof. intros H. unfold line_output. rewrite H. now destruct c. Qed.

(** Outside a code block, lines without a delimiter leave the flag as it
    is; inside one, they are emitted escaped. *)
Lemma render_outside (ls : list str) (prev after : option str) :
  no_fence ls = true -> snd (render prev ls after false) = false.
Proof.
  revert prev. induction ls as [|l ls IH]; intros prev H; [reflexivity|].
  cbn [no_fence forallb] in H. apply andb_true_iff in H as [Hl Hls].
  apply negb_true_iff in Hl.
  cbn [render snd]. unfold line_output at 1. rewrite Hl. cbn [snd].
  now apply IH.
Qed.

Lemma render_in_code (ls : list str) (prev after : option str) :
  no_fence ls = true ->
  render prev ls after true = (List.map escape ls, true).
Proof.
  revert prev. induction ls as [|l ls IH]; intros prev H; [reflexivity|].
  cbn [no_fence forallb] in H. apply andb_true_iff in H as [Hl Hls].
  apply negb_true_iff in Hl.
  cbn [render]. unfold line_output. rewrite Hl. cbn [fst snd].
  now rewrite (IH _ Hls).
Qed.

Lemma last_line_cons (l : str) (ls : list str) :
  last_line (l :: ls) =
  match last_line ls with
  | None => Some l
  | Some x => Some x
  end.
Proof.
  unfold last_line. cbn [rev].
  destruct (rev ls); reflexivity.
Qed.

(** The fragments of two stretches that follow each other. *)
Lemma render_app (A B : list str) (prev after : option str) (c : bool) :
  render prev (A ++ B) after c =
  let ra := render prev A (match B with [] => after | b :: _ => Some b end) c in
  let rb := render (match last_line A with None => prev | Some x => Some x end)
              B after (snd ra) in
  (fst ra ++ fst rb, snd rb).
Proof.
  revert prev c. induction A as [|l A IH]; intros prev c.
  - cbn. now destruct (render prev B after c).
  - cbn [app render]. cbv zeta. rewrite IH. cbv zeta. cbn [fst snd].
    rewrite last_line_cons.
    replace (match A ++ B with [] => after | n :: _ => Some n end)
      with (match A with
            | [] => match B with [] => after | b :: _ => Some b end
            | n :: _ => Some n
            end) by now destruct A.
    destruct (last_line A); now rewrite <- app_assoc.
Qed.

Lemma fragments_render (lines : list str) :
  fragments lines =
  let out := render None lines None false in
  fst out ++ if snd out then [code_close] else [].
Proof.
  unfold fragments. rewrite convert_lines_render by lia. cbv zeta.
  unfold close_unclosed, append. cbn [in_code_block result].
  destruct (snd (render None lines None false)); cbn [result];
    now rewrite ?app_nil_r.
Qed.

(** The fragments of a document that opens a code block after the lines
    [before]. *)
Lemma render_block (before content after : list str) (d : str) :
  no_fence before = true -> startswith fence d = true ->
  no_fence content = true -> closes_block after = true ->
  let out := render None (before ++ d :: content ++ after) None false in
  fst out ++ (if snd out then [code_close] else []) =
    fragments before ++ [code_open (strip (slice_from d 3))] ++
    List.map escape content ++ [code_close] ++ fragments (List.tl after) /\
  (after = [] -> snd out = true).
Proof.
  intros Hb Hd Hc Ha. cbv zeta.
  destruct (fence_not_item d Hd) as [Hdu Hdo].
  rewrite render_app. cbv zeta.
  (* the lines before the block *)
  rewrite (render_ext before None None (Some d) None false eq_refl eq_refl)
    by (cbn [holds]; assumption).
  rewrite (fragments_render before). cbv zeta.
  rewrite (render_outside before None None Hb).
  rewrite app_nil_r.
  (* the opening delimiter and the content *)
  cbn [render]. rewrite !(line_output_fence _ _ d false Hd). cbn [fst snd negb].
  rewrite render_app. cbv zeta. rewrite (render_in_code content _ _ Hc).
  cbn [fst snd].
  destruct after as [|d' rest].
  - (* the end of the document: the block is closed after the loop *)
    cbn [render fst snd tl]. split; [|reflexivity].
    change (fragments []) with (@nil str).
    rewrite !app_nil_r, <- !app_assoc. reflexivity.
  - (* the closing delimiter *)
    cbn [closes_block] in Ha.
    destruct (fence_not_item d' Ha) as [Hdu' Hdo'].
    cbn [render tl]. rewrite !(line_output_fence _ _ d' true Ha).
    cbn [fst snd negb].
    rewrite (render_ext rest (Some d') None None None false)
      by (cbn [holds]; assumption || reflexivity).
    rewrite (fragments_render rest). cbv zeta.
    split; [|discriminate].
    rewrite <- !app_assoc. reflexivity.
Qed.

(** C4, as the specification states it, fails on the flag: closing a
    block left open appends the closing markup and does not touch
    [in_code_block], which is still true when the function returns. *)
Lemma unterminated_fence_flag_stays_set :
  exists st : state,
    final_state (fuel_for (lit "```")) (lit "```") = Return st /\
    result st = [code_open []; code_close] /\
    in_code_block st = true.
Proof.
  eexists. split; [vm_compute; reflexivity|]. split; reflexivity.
Qed.

(** C4, amended.  When a code block is still open after the last line,
    the converter appends the closing markup as the last fragment of the
    output before it returns; the variable [in_code_block] is not reset
    by this and is still true on return.  The markup of the code blocks
    is balanced and never nested: for a document that opens a block after
    lines without a delimiter, the output is the output of these lines,
    one opening tag with the language of the delimiter, the lines up to
    the next delimiter or to the end, escaped, one closing tag (by the
    closing delimiter, or forced at the end of the document), and then
    the output of what follows the closing delimiter, converted as a
    document of its own. *)
Theorem unterminated_fence_closed (text : str) (extra : nat) :
  (exists st : state,
     while_loop (fuel_for text + extra) (split newline text) initial_state =
       Return st /\
     final_state (fuel_for text + extra) text = Return (close_unclosed st) /\
     (in_code_block st = true ->
      result (close_unclosed st) = result st ++ [code_close] /\
      in_code_block (close_unclosed st) = true /\
      simple_markdown_to_html (fuel_for text + extra) text =
        Return (join [newline] (result st ++ [code_close])))) /\
  (forall (before content after : list str) (d : str),
     split newline text = before ++ d :: content ++ after ->
     no_fence before = true -> startswith fence d = true ->
     no_fence content = true -> closes_block after = true ->
     exists st : state,
       final_state (fuel_for text + extra) text = Return st /\
       result st =
         fragments before ++ [code_open (strip (slice_from d 3))] ++
         List.map escape content ++ [code_close] ++ fragments (List.tl after) /\
       (after = [] -> in_code_block st = true)).
Proof.
  split.
  - set (lines := split newline text).
    set (out := render None lines None false).
    exists {| i := len lines; in_code_block := snd out; result := fst out |}.
    split; [|split].
    + unfold fuel_for. fold lines.
      rewrite (while_loop_iterate lines (length lines))
        by (unfold len, initial_state; cbn [i]; lia).
      pose proof (iterate_render lines [] [] initial_state eq_refl) as Hit.
      cbn [app] in Hit. rewrite app_nil_r in Hit. exact Hit.
    + unfold final_state, fuel_for. fold lines.
      now rewrite convert_lines_render by lia.
    + cbn [in_code_block]. intros Hc.
      unfold close_unclosed, append. cbn [in_code_block result].
      rewrite Hc. cbn [in_code_block result].
      split; [reflexivity|]. split; [reflexivity|].
      rewrite simple_markdown_to_html_render. cbv zeta. fold lines. fold out.
      now rewrite Hc.
  - intros before content after d Hsplit Hb Hd Hc Ha.
    unfold final_state, fuel_for. rewrite convert_lines_render by lia. cbv zeta.
    eexists. split; [reflexivity|].
    destruct (render_block before content after d Hb Hd Hc Ha) as [Hres Hflag].
    rewrite <- Hsplit in Hres, Hflag.
    unfold close_unclosed, append. cbn [in_code_block result].
    split.
    + rewrite <- Hres.
      destruct (snd (render None (split newline text) None false));
        cbn [result]; now rewrite ?app_nil_r.
    + intros E. rewrite (Hflag E). reflexivity.
Qed.

Lemma unterminated_fence_closed_witness :
  (exists st : state,
     final_state 4 (lit "a" ++ [newline] ++ lit "```py" ++ [newline] ++ lit "x<y") =
       Return st /\
     result st = [lit "<p>a</p>"; code_open (lit "py"); lit "x&lt;y"; code_close] /\
     in_code_block st = true) /\
  simple_markdown_to_html 4
    (lit "a" ++ [newline] ++ lit "```py" ++ [newline] ++ lit "x<y") =
  Return (join [newline]
            ([lit "<p>a</p>"; code_open (lit "py"); lit "x&lt;y"] ++ [code_close])).
Proof.
  split.
  - destruct (proj2 (unterminated_fence_closed
                (lit "a" ++ [newline] ++ lit "```py" ++ [newline] ++ lit "x<y") 0)
                [lit "a"] [lit "x<y"] [] (lit "```py")
                eq_refl eq_refl eq_refl eq_refl eq_refl) as (st & Hst & Hres & Hflag).
    exists st. split; [exact Hst|]. split; [exact Hres | exact (Hflag eq_refl)].
  - destruct (proj1 (unterminated_fence_closed
                (lit "a" ++ [newline] ++ lit "```py" ++ [newline] ++ lit "x<y") 0))
      as (st & Hloop & _ & Hclose).
    vm_compute in Hloop. injection Hloop as <-.
    exact (proj2 (proj2 (Hclose eq_refl))).
Defined.

(* ================================================================== *)
(** * Further properties of the converter *)
(* ================================================================== *)

(** ** Blank lines *)

Lemma blank_line_regular (line : str) :
  List.forallb isspace line = true -> is_regular line = true.
Proof.
  destruct line as [|c r]; [reflexivity|].
  cbn [forallb]. intros H. apply andb_true_iff in H as [Hc _].
  apply isspace_values in Hc. cbn [In] in Hc.
  repeat (destruct Hc as [<- | Hc]; [reflexivity|]).
  destruct Hc.
Qed.

(** X1.  Outside a code block every blank line, empty or made of
    whitespace in the sense of [str.strip], becomes the line-break
    element and nothing else. *)
Theorem blank_line_is_line_break
    (lines : list str) (st : state) (k : nat) (line : str) :
  i st = Z.of_nat k -> List.nth_error lines k = Some line ->
  in_code_block st = false -> List.forallb isspace line = true ->
  loop_body lines st =
  Return {| i := i st + 1; in_code_block := false;
            result := result st ++ [lit "<br>"] |}.
Proof.
  intros Hi Hline Hc Hblank.
  rewrite (loop_body_regular lines st k line Hi Hline Hc (blank_line_regular line Hblank)).
  unfold regular_fragment. now rewrite (strip_blank line Hblank).
Qed.

Lemma blank_line_is_line_break_witness :
  loop_body [lit "a"; [9%N; 32%N; 160%N]] {| i := 1; in_code_block := false; result := [lit "<p>a</p>"] |} =
  Return {| i := 2; in_code_block := false; result := [lit "<p>a</p>"; lit "<br>"] |}.
Proof.
  exact (blank_line_is_line_break [lit "a"; [9%N; 32%N; 160%N]]
           {| i := 1; in_code_block := false; result := [lit "<p>a</p>"] |}
           1 [9%N; 32%N; 160%N] eq_refl eq_refl eq_refl eq_refl).
Defined.

(** ** The parity of the fences *)

Lemma line_output_flag (prev next : option str) (l : str) (c : bool) :
  snd (line_output prev l next c) = if startswith fence l then negb c else c.
Proof.
  unfold line_output. destruct (startswith fence l); now destruct c.
Qed.

Lemma render_flag (ls : list str) (prev after : option str) (c : bool) :
  snd (render prev ls after c) = xorb c (Nat.odd (count_fences ls)).
Proof.
  revert prev c. induction ls as [|l ls IH]; intros prev c.
  - cbn. now destruct c.
  - cbn [render snd]. rewrite IH, line_output_flag.
    unfold count_fences. cbn [filter].
    destruct (startswith fence l); [|reflexivity].
    cbn [length]. rewrite Nat.odd_succ, <- Nat.negb_odd.
    destruct c, (Nat.odd (length (filter (startswith fence) ls))); reflexivity.
Qed.

(** X2.  The flag toggles at every fence delimiter and nowhere else: when
    the loop ends, [in_code_block] is true exactly when the text has an
    odd number of delimiter lines, and this is exactly when the closing
    markup is appended after the loop. *)
Theorem fence_parity (text : str) (extra : nat) :
  exists st : state,
    while_loop (fuel_for text + extra) (split newline text) initial_state = Return st /\
    in_code_block st = Nat.odd (count_fences (split newline text)) /\
    final_state (fuel_for text + extra) text =
    Return (if Nat.odd (count_fences (split newline text))
            then append st code_close else st).
Proof.
  set (lines := split newline text).
  set (out := render None lines None false).
  exists {| i := len lines; in_code_block := snd out; result := fst out |}.
  assert (Hflag : snd out = Nat.odd (count_fences lines)).
  { unfold out. now rewrite render_flag. }
  split; [|split].
  - unfold fuel_for. fold lines.
    rewrite (while_loop_iterate lines (length lines))
      by (unfold len, initial_state; cbn [i]; lia).
    pose proof (iterate_render lines [] [] initial_state eq_refl) as Hit.
    cbn [app] in Hit. rewrite app_nil_r in Hit. exact Hit.
  - exact Hflag.
  - unfold final_state, fuel_for. fold lines.
    rewrite convert_lines_render by lia. cbv zeta. fold out.
    unfold close_unclosed. cbn [in_code_block]. now rewrite Hflag.
Qed.

(** ** What a code block lets through *)

Lemma escape_char_no_angle (c : char) :
  no_char lt_sign (escape_char c) = true /\ no_char gt_sign (escape_char c) = true.
Proof.
  unfold escape_char.
  destruct (char_eqb c amp); [split; reflexivity|].
  destruct (char_eqb c lt_sign) eqn:El; [split; reflexivity|].
  destruct (char_eqb c gt_sign) eqn:Eg; [split; reflexivity|].
  rewrite !no_char_cons, El, Eg. split; reflexivity.
Qed.

Lemma escape_no_angle (line : str) :
  no_char lt_sign (escape line) = true /\ no_char gt_sign (escape line) = true.
Proof.
  rewrite escape_flat_map.
  induction line as [|c line [IH1 IH2]]; [split; reflexivity|].
  cbn [flat_map]. rewrite !no_char_app, IH1, IH2.
  destruct (escape_char_no_angle c) as [-> ->]. split; reflexivity.
Qed.

(** X3.  Inside an open code block no markup gets through: the fragment
    of a line that is not a delimiter holds neither [<] nor [>]. *)
Theorem fenced_fragment_has_no_angle
    (lines : list str) (st : state) (k : nat) (line : str) :
  i st = Z.of_nat k -> List.nth_error lines k = Some line ->
  in_code_block st = true -> startswith fence line = false ->
  exists fragment : str,
    loop_body lines st =
    Return {| i := i st + 1; in_code_block := true;
              result := result st ++ [fragment] |} /\
    no_char lt_sign fragment = true /\ no_char gt_sign fragment = true.
Proof.
  intros Hi Hline Hc Hf. exists (escape line). split.
  - rewrite (loop_body_view lines st k line Hi Hline). cbv zeta.
    unfold line_output. now rewrite Hf, Hc.
  - apply escape_no_angle.
Qed.

Lemma fenced_fragment_has_no_angle_witness :
  exists fragment : str,
    loop_body [lit "```"; lit "<script>x</script>"]
      {| i := 1; in_code_block := true; result := [code_open []] |} =
    Return {| i := 2; in_code_block := true;
              result := [code_open []] ++ [fragment] |} /\
    no_char lt_sign fragment = true /\ no_char gt_sign fragment = true.
Proof.
  exact (fenced_fragment_has_no_angle [lit "```"; lit "<script>x</script>"]
           {| i := 1; in_code_block := true; result := [code_open []] |}
           1 (lit "<script>x</script>") eq_refl eq_refl eq_refl eq_refl).
Defined.

(** ** What regular text lets through *)

Lemma re_sub_links_no_lbrack (s : str) :
  no_char lbrack s = true -> re_sub_links s = s.
Proof.
  intros H. rewrite <- (app_nil_r s) at 1.
  rewrite (re_sub_links_before s [] H). apply app_nil_r.
Qed.

(** X4.  Outside a code block nothing is escaped: a regular line that is
    not blank and holds no star, no [[] and no block tag is emitted as it
    is, whatever markup it holds, between the tags of a paragraph. *)
Theorem plain_line_verbatim
    (lines : list str) (st : state) (k : nat) (line : str) :
  i st = Z.of_nat k -> List.nth_error lines k = Some line ->
  in_code_block st = false -> is_regular line = true ->
  truthy (strip line) = true ->
  no_char star line = true -> no_char lbrack line = true ->
  has_block_tag line = false ->
  loop_body lines st =
  Return {| i := i st + 1; in_code_block := false;
            result := result st ++ [lit "<p>" ++ line ++ lit "</p>"] |}.
Proof.
  intros Hi Hline Hc Hreg Hnb Hstar Hbr Htag.
  rewrite (loop_body_regular lines st k line Hi Hline Hc Hreg).
  unfold regular_fragment.
  rewrite (format_emphasis_no_star line Hstar), (re_sub_links_no_lbrack line Hbr).
  now rewrite Hnb, Htag.
Qed.

Lemma plain_line_verbatim_witness :
  loop_body [lit "<script>alert(1)</script> & co"] initial_state =
  Return {| i := 1; in_code_block := false;
            result := [lit "<p><script>alert(1)</script> & co</p>"] |}.
Proof.
  exact (plain_line_verbatim [lit "<script>alert(1)</script> & co"] initial_state 0
           (lit "<script>alert(1)</script> & co")
           eq_refl eq_refl eq_refl eq_refl eq_refl eq_refl eq_refl eq_refl).
Defined.

(** ** The lines of the output *)

Lemma split_not_nil (sep : char) (s : str) : split sep s <> [].
Proof.
  destruct s as [|c s]; cbn [split]; [discriminate|].
  destruct (char_eqb c sep); [discriminate|].
  destruct (split sep s); discriminate.
Qed.

Lemma split_app_sep (sep : char) (a b : str) :
  split sep (a ++ sep :: b) = split sep a ++ split sep b.
Proof.
  induction a as [|c a IH]; cbn [app split].
  - now rewrite char_eqb_refl.
  - destruct (char_eqb c sep); rewrite IH; [reflexivity|].
    pose proof (split_not_nil sep a) as Hne.
    destruct (split sep a); [congruence | reflexivity].
Qed.

Lemma split_no_sep (sep : char) (a : str) :
  no_char sep a = true -> split sep a = [a].
Proof.
  intros H. induction a as [|c a IH]; [reflexivity|].
  rewrite no_char_cons in H. apply andb_true_iff in H as [Hc Ha].
  apply negb_true_iff in Hc. cbn [split]. now rewrite Hc, (IH Ha).
Qed.

(** Splitting undoes joining, for pieces without the separator. *)
Lemma split_join (sep : char) (pieces : list str) :
  pieces <> [] -> List.forallb (no_char sep) pieces = true ->
  split sep (join [sep] pieces) = pieces.
Proof.
  induction pieces as [|p pieces IH]; intros Hne H; [congruence|].
  cbn [forallb] in H. apply andb_true_iff in H as [Hp Hps].
  destruct pieces as [|q pieces].
  - cbn [join]. now apply split_no_sep.
  - change (join [sep] (p :: q :: pieces)) with (p ++ sep :: join [sep] (q :: pieces)).
    rewrite split_app_sep, (split_no_sep sep p Hp), IH by (congruence || assumption).
    reflexivity.
Qed.

(** The lines of a text hold no line break. *)
Lemma split_pieces_no_sep (sep : char) (s : str) :
  List.forallb (no_char sep) (split sep s) = true.
Proof.
  induction s as [|c s IH]; [reflexivity|].
  cbn [split]. destruct (char_eqb c sep) eqn:E.
  - exact IH.
  - destruct (split sep s) as [|piece pieces]; cbn [forallb] in *.
    + now rewrite no_char_cons, E.
    + apply andb_true_iff in IH as [H1 H2].
      now rewrite no_char_cons, E, H1, H2.
Qed.

Lemma no_char_skipn (c : char) (n : nat) (s : str) :
  no_char c s = true -> no_char c (List.skipn n s) = true.
Proof.
  revert s. induction n as [|n IH]; intros s H; [exact H|].
  destruct s as [|x s]; [reflexivity|].
  rewrite no_char_cons in H. apply andb_true_iff in H as [_ H].
  cbn [skipn]. now apply IH.
Qed.

Lemma no_char_slice_from (c : char) (s : str) (k : Z) :
  no_char c s = true -> no_char c (slice_from s k) = true.
Proof. intros H. unfold slice_from. now apply no_char_skipn. Qed.

Lemma no_char_rev (c : char) (s : str) : no_char c (List.rev s) = no_char c s.
Proof.
  induction s as [|x s IH]; [reflexivity|].
  cbn [rev]. rewrite no_char_app, no_char_cons, IH. cbn.
  now rewrite andb_true_r, andb_comm.
Qed.

Lemma no_char_lstrip (c : char) (s : str) :
  no_char c s = true -> no_char c (lstrip s) = true.
Proof.
  induction s as [|x s IH]; intros H; [reflexivity|].
  cbn [lstrip]. destruct (isspace x); [|exact H].
  rewrite no_char_cons in H. apply andb_true_iff in H as [_ H]. now apply IH.
Qed.

Lemma no_char_strip (c : char) (s : str) :
  no_char c s = true -> no_char c (strip s) = true.
Proof.
  intros H. unfold strip, rstrip.
  rewrite no_char_rev. apply no_char_lstrip. rewrite no_char_rev.
  now apply no_char_lstrip.
Qed.

Lemma no_char_replace_chr (c old : char) (new s : str) :
  no_char c new = true -> no_char c s = true ->
  no_char c (replace_chr old new s) = true.
Proof.
  intros Hn H. induction s as [|x s IH]; [reflexivity|].
  rewrite no_char_cons in H. apply andb_true_iff in H as [Hx Hs].
  unfold replace_chr. cbn [flat_map]. rewrite no_char_app.
  fold (replace_chr old new s). rewrite (IH Hs), andb_true_r.
  destruct (char_eqb x old); [exact Hn|].
  now rewrite no_char_cons, Hx.
Qed.

Lemma no_char_replace_first (c : char) (old new s : str) :
  no_char c new = true -> no_char c s = true ->
  no_char c (replace_first old new s) = true.
Proof.
  intros Hn. induction s as [|x s IH]; intros H.
  - rewrite replace_first_unfold. destruct (startswith old []); [|reflexivity].
    rewrite no_char_app, Hn. now apply no_char_skipn.
  - rewrite replace_first_unfold. destruct (startswith old (x :: s)).
    + rewrite no_char_app, Hn. now apply no_char_skipn.
    + rewrite no_char_cons in *. apply andb_true_iff in H as [Hx Hs].
      now rewrite Hx, (IH Hs).
Qed.

Lemma no_newline_format_emphasis (line : str) :
  no_char newline line = true -> no_char newline (format_emphasis line) = true.
Proof.
  intros H. unfold format_emphasis.
  repeat (apply no_char_replace_first; [reflexivity|]). exact H.
Qed.

Lemma no_newline_re_sub_links (s : str) :
  no_char newline s = true -> no_char newline (re_sub_links s) = true.
Proof.
  induction s as [|text url rest G IH|c s M IH] using re_sub_links_ind; intros H.
  - reflexivity.
  - rewrite re_sub_links_link by exact G.
    unfold link_source in H. rewrite !no_char_app in H.
    repeat (apply andb_true_iff in H; destruct H as [H ?]).
    repeat match goal with
           | E : _ && _ = true |- _ => apply andb_true_iff in E; destruct E
           end.
    unfold anchor. rewrite !no_char_app.
    repeat (apply andb_true_iff; split); try reflexivity; try assumption.
    now apply IH.
  - rewrite (re_sub_links_skip _ _ M).
    rewrite no_char_cons in *. apply andb_true_iff in H as [Hc Hs].
    now rewrite Hc, (IH Hs).
Qed.

Lemma no_newline_regular_fragment (line : str) :
  no_char newline line = true -> no_char newline (regular_fragment line) = true.
Proof.
  intros H. unfold regular_fragment.
  pose proof (no_newline_re_sub_links _ (no_newline_format_emphasis _ H)) as Hf.
  destruct (truthy (strip line)); [|reflexivity].
  destruct (has_block_tag _); [exact Hf|].
  now rewrite !no_char_app, Hf.
Qed.

Lemma no_newline_escape (line : str) :
  no_char newline line = true -> no_char newline (escape line) = true.
Proof.
  intros H. unfold escape.
  repeat (apply no_char_replace_chr; [reflexivity|]). exact H.
Qed.

Lemma no_newline_line_output (prev next : option str) (l : str) (c : bool) :
  no_char newline l = true ->
  List.forallb (no_char newline) (fst (line_output prev l next c)) = true.
Proof.
  intros H.
  assert (Hs : forall k, no_char newline (slice_from l k) = true)
    by (intros k; now apply no_char_slice_from).
  pose proof (no_newline_regular_fragment l H) as Hr.
  pose proof (no_newline_escape l H) as He.
  pose proof (no_char_strip newline _ (Hs 3%Z)) as Hlang.
  unfold line_output, block_output.
  repeat match goal with
         | |- context [if ?b then _ else _] => destruct b
         end;
    cbn [fst forallb app]; unfold heading, list_item, code_open;
    rewrite ?no_char_app, ?Hs, ?Hr, ?He, ?Hlang; reflexivity.
Qed.

Lemma no_newline_render (ls : list str) (prev after : option str) (c : bool) :
  List.forallb (no_char newline) ls = true ->
  List.forallb (no_char newline) (fst (render prev ls after c)) = true.
Proof.
  revert prev c. induction ls as [|l ls IH]; intros prev c H; [reflexivity|].
  cbn [forallb] in H. apply andb_true_iff in H as [Hl Hls].
  cbn [render fst]. rewrite forallb_app.
  now rewrite no_newline_line_output, IH.
Qed.

Lemma line_output_not_empty (prev next : option str) (l : str) (c : bool) :
  (1 <= length (fst (line_output prev l next c)))%nat.
Proof.
  unfold line_output, block_output.
  repeat match goal with
         | |- context [if ?b then _ else _] => destruct b
         end;
    cbn [fst length app]; lia.
Qed.

Lemma render_length (ls : list str) (prev after : option str) (c : bool) :
  (length ls <= length (fst (render prev ls after c)))%nat.
Proof.
  revert prev c. induction ls as [|l ls IH]; intros prev c; [cbn; lia|].
  cbn [render fst length]. rewrite length_app.
  pose proof (line_output_not_empty prev
                (match ls with [] => after | n :: _ => Some n end) l c).
  specialize (IH (Some l)
                (snd (line_output prev l
                        (match ls with [] => after | n :: _ => Some n end) c))).
  lia.
Qed.

(** X5.  The output is made of whole lines: no fragment that the loop
    (or the closing after it) appended to [result] holds a line break, so
    splitting the returned text at the line breaks gives back exactly
    these fragments, and there is at least one of them for every line of
    the text (none is dropped). *)
Theorem output_lines_are_fragments (text : str) (extra : nat) :
  exists st : state,
    final_state (fuel_for text + extra) text = Return st /\
    simple_markdown_to_html (fuel_for text + extra) text =
      Return (join [newline] (result st)) /\
    List.forallb (no_char newline) (result st) = true /\
    split newline (join [newline] (result st)) = result st /\
    (length (split newline text) <= length (result st))%nat.
Proof.
  set (lines := split newline text).
  set (out := render None lines None false).
  assert (Hfinal : final_state (fuel_for text + extra) text =
                   Return (close_unclosed {| i := len lines; in_code_block := snd out;
                                             result := fst out |})).
  { unfold final_state, fuel_for. fold lines. now rewrite convert_lines_render by lia. }
  eexists. split; [exact Hfinal|].
  assert (Hres : result (close_unclosed {| i := len lines; in_code_block := snd out;
                                           result := fst out |}) =
                 fst out ++ if snd out then [code_close] else []).
  { unfold close_unclosed, append. cbn [in_code_block result].
    destruct (snd out); cbn [result]; now rewrite ?app_nil_r. }
  rewrite Hres.
  assert (Hlen : (length lines <= length (fst out))%nat) by apply render_length.
  assert (Hone : forallb (no_char newline) (fst out) = true).
  { apply no_newline_render. apply split_pieces_no_sep. }
  assert (Hall : forallb (no_char newline)
                   (fst out ++ if snd out then [code_close] else []) = true).
  { rewrite forallb_app, Hone. now destruct (snd out). }
  split.
  { unfold simple_markdown_to_html. rewrite Hfinal. cbn [bind]. now rewrite Hres. }
  split; [exact Hall|]. split.
  - apply split_join; [|exact Hall].
    pose proof (split_not_nil newline text) as Hne. fold lines in Hne.
    destruct lines; [congruence|].
    destruct (fst out); [cbn [length] in Hlen; lia | discriminate].
  - rewrite length_app. lia.
Qed.

(* ================================================================== *)
(** * The client *)
(* ================================================================== *)

(** The conversion that the client calls never raises. *)
Lemma markdown_html_fragments (text : str) :
  markdown_html text = Return (join [newline] (fragments (split newline text))).
Proof.
  unfold markdown_html. rewrite <- (Nat.add_0_r (fuel_for text)).
  rewrite simple_markdown_to_html_render. cbv zeta.
  now rewrite fragments_render.
Qed.

Lemma formatted_result_string (s : str) :
  formatted_result (JStr s) =
  Done {| raw_output := s;
          formatted_output := join [newline] (fragments (split newline s)) |}.
Proof.
  unfold formatted_result. now rewrite markdown_html_fragments.
Qed.

(** ** The demo mode *)

Lemma line_output_no_item (prev next : option str) (l : str) (c : bool) :
  is_unordered_item l = false -> ordered_shape l = false ->
  line_output prev l next c = line_output None l None c.
Proof.
  intros H1 H2. unfold line_output, block_output. now rewrite H1, H2.
Qed.

(** A line that is neither a list item nor a delimiter, after lines that
    leave no code block open, cuts the document in two. *)
Lemma fragments_split_at (A B : list str) (P : str) :
  is_unordered_item P = false -> ordered_shape P = false ->
  startswith fence P = false ->
  snd (render None A None false) = false ->
  fragments (A ++ P :: B) = fragments A ++ block_output None P None ++ fragments B.
Proof.
  intros Hu Ho Hf HA.
  rewrite !fragments_render. cbv zeta.
  rewrite render_app. cbv zeta. cbn [fst snd].
  rewrite (render_ext A None None (Some P) None false eq_refl eq_refl)
    by (cbn [holds]; assumption).
  rewrite HA, app_nil_r.
  cbn [render]. rewrite !(line_output_no_item _ _ P false Hu Ho).
  unfold line_output. rewrite Hf. cbn [fst snd].
  rewrite (render_ext B (Some P) None None None false)
    by (cbn [holds]; assumption || reflexivity).
  now rewrite <- !app_assoc.
Qed.

Lemma first_name_no_char (c : char) (choices : list (json * str)) (model_id : str) :
  List.forallb (fun choice => no_char c (snd choice)) choices = true ->
  no_char c model_id = true ->
  no_char c (first_name choices model_id) = true.
Proof.
  intros H Hid. induction choices as [|[id name] choices IH]; [exact Hid|].
  cbn [forallb snd] in H. apply andb_true_iff in H as [Hn Hc].
  cbn [first_name]. destruct (json_eq_str id model_id); [exact Hn | now apply IH].
Qed.

Lemma demo_lines_split (model_name prompt : str) :
  no_char newline model_name = true -> no_char newline prompt = true ->
  split newline (join [newline] (demo_lines model_name prompt)) =
  demo_lines model_name prompt.
Proof.
  intros Hm Hp. apply split_join; [discriminate|].
  unfold demo_lines. cbn [forallb].
  rewrite !no_char_app, Hm, Hp. reflexivity.
Qed.

Lemma demo_fragments (model_name prompt : str) :
  fragments (demo_lines model_name prompt) =
  [lit "<h1>Response from " ++ model_name ++ lit "</h1>"] ++ demo_page_before ++
  [wrap_paragraph (lit "> " ++ re_sub_links (format_emphasis prompt))] ++
  demo_page_after.
Proof.
  unfold demo_lines.
  etransitivity.
  { match goal with
    | |- fragments (?L1 :: ?rest) = _ =>
        exact (fragments_split_at [] rest L1 eq_refl eq_refl eq_refl eq_refl)
    end. }
  change (fragments []) with (@nil str). rewrite app_nil_l.
  apply (f_equal2 (@app str)); [reflexivity|].
  etransitivity.
  { match goal with
    | |- fragments (?a :: ?b :: ?c :: ?d :: ?e :: ?f :: ?g :: ?P :: ?rest) = _ =>
        exact (fragments_split_at [a; b; c; d; e; f; g] rest P
                 eq_refl eq_refl eq_refl eq_refl)
    end. }
  apply (f_equal2 (@app str)); [vm_compute; reflexivity|].
  apply (f_equal2 (@app str)); [|vm_compute; reflexivity].
  change (block_output None (lit "> " ++ prompt) None)
    with [regular_fragment (lit "> " ++ prompt)].
  f_equal.
  rewrite (regular_fragment_nonblank _ 62%N) by (now left || reflexivity).
  rewrite (format_emphasis_skip (lit "> ") prompt eq_refl).
  now rewrite (re_sub_links_before (lit "> ") _ eq_refl).
Qed.

(** X6.  In demo mode [generate_completion] never raises and never
    looks at what the network gives: for every prompt and every model id
    it returns the demo text as [raw_output] and its conversion as
    [formatted_output]. *)
Theorem demo_completion_total
    (str_of : json -> str) (c : client) (models_reply reply : response)
    (prompt model_id : str) :
  demo_mode c = true ->
  generate_completion str_of c models_reply reply prompt model_id =
  Done {| raw_output :=
            join [newline] (demo_lines (first_name demo_models model_id) prompt);
          formatted_output :=
            join [newline]
              (fragments
                 (split newline
                    (join [newline]
                       (demo_lines (first_name demo_models model_id) prompt)))) |}.
Proof.
  intros Hd. unfold generate_completion, _get_demo_response, get_available_models.
  rewrite Hd. cbn [and_then]. apply formatted_result_string.
Qed.

Lemma demo_completion_total_witness :
  generate_completion str_of_strings (OpenRouterClient None None)
    (Json JNull) (RequestException []) (lit "a" ++ [newline] ++ lit "```") (lit "x") =
  Done {| raw_output :=
            join [newline]
              (demo_lines (first_name demo_models (lit "x"))
                 (lit "a" ++ [newline] ++ lit "```"));
          formatted_output :=
            join [newline]
              (fragments
                 (split newline
                    (join [newline]
                       (demo_lines (first_name demo_models (lit "x"))
                          (lit "a" ++ [newline] ++ lit "```"))))) |}.
Proof.
  exact (demo_completion_total str_of_strings (OpenRouterClient None None)
           (Json JNull) (RequestException []) (lit "a" ++ [newline] ++ lit "```")
           (lit "x") eq_refl).
Defined.

(** X7.  The demo page.  In demo mode, for a prompt and a model id of one
    line each, the page is fixed but for two places: the heading shows
    the description of the model (or the id itself when the list does not
    know it), and the prompt appears after the quote marker as one
    fragment, with the emphasis and the links of the prompt converted and
    nothing escaped; this fragment is wrapped as a paragraph unless the
    formatted text holds one of the block tags, in which case it is
    emitted without the wrapper.  The link of the demo text itself stays
    as it is written, for it stands in a list item. *)
Theorem demo_mode_page
    (str_of : json -> str) (c : client) (models_reply reply : response)
    (prompt model_id : str) :
  demo_mode c = true ->
  no_char newline prompt = true -> no_char newline model_id = true ->
  generate_completion str_of c models_reply reply prompt model_id =
  Done {| raw_output :=
            join [newline] (demo_lines (first_name demo_models model_id) prompt);
          formatted_output :=
            join [newline]
              ([lit "<h1>Response from " ++ first_name demo_models model_id ++
                lit "</h1>"] ++
               demo_page_before ++
               [wrap_paragraph (lit "> " ++ re_sub_links (format_emphasis prompt))] ++
               demo_page_after) |}.
Proof.
  intros Hd Hp Hid.
  unfold generate_completion, _get_demo_response, get_available_models.
  rewrite Hd. cbn [and_then]. rewrite formatted_result_string.
  rewrite demo_lines_split;
    [| apply first_name_no_char; [reflexivity | exact Hid] | exact Hp].
  now rewrite demo_fragments.
Qed.

Lemma demo_mode_page_witness :
  generate_completion str_of_strings (OpenRouterClient None None)
    (Json JNull) (Json JNull) (lit "what is *this* <b>?") (lit "openai/gpt-4o") =
  Done {| raw_output :=
            join [newline]
              (demo_lines (lit "GPT-4o - OpenAI's latest model")
                 (lit "what is *this* <b>?"));
          formatted_output :=
            join [newline]
              ([lit "<h1>Response from GPT-4o - OpenAI's latest model</h1>"] ++
               demo_page_before ++
               [lit "<p>> what is <em>this</em> <b>?</p>"] ++
               demo_page_after) |}.
Proof.
  exact (demo_mode_page str_of_strings (OpenRouterClient None None)
           (Json JNull) (Json JNull) (lit "what is *this* <b>?") (lit "openai/gpt-4o")
           eq_refl eq_refl eq_refl).
Defined.

(** ** Completions from the provider *)

Lemma fragments_one_regular (line : str) :
  is_regular line = true -> fragments [line] = [regular_fragment line].
Proof.
  intros H. rewrite fragments_render. cbv zeta. cbn [render].
  rewrite (line_output_regular None None line H). reflexivity.
Qed.

(** X8.  A failed request never raises in [generate_completion]: the
    message of the exception, after a fixed prefix, is returned as
    [raw_output], and [formatted_output] is that text between the tags of
    a paragraph.  This output is not made by the converter; it is what
    the converter would make whenever the message is one line without a
    star, a [[] or a block tag. *)
Theorem request_failure_page
    (str_of : json -> str) (c : client) (models_reply : response)
    (prompt model_id message : str) :
  demo_mode c = false ->
  generate_completion str_of c models_reply (RequestException message) prompt model_id =
  Done {| raw_output := lit "Error generating completion: " ++ message;
          formatted_output :=
            lit "<p>" ++ (lit "Error generating completion: " ++ message) ++ lit "</p>" |} /\
  (no_char newline message = true -> no_char star message = true ->
   no_char lbrack message = true ->
   has_block_tag (lit "Error generating completion: " ++ message) = false ->
   markdown_html (lit "Error generating completion: " ++ message) =
   Return (lit "<p>" ++ (lit "Error generating completion: " ++ message) ++ lit "</p>")).
Proof.
  intros Hd. split.
  - unfold generate_completion. now rewrite Hd.
  - intros Hnl Hstar Hbr Htag.
    set (msg := lit "Error generating completion: " ++ message) in *.
    assert (Hnl' : no_char newline msg = true)
      by (unfold msg; now rewrite no_char_app, Hnl).
    assert (Hstar' : no_char star msg = true)
      by (unfold msg; now rewrite no_char_app, Hstar).
    assert (Hbr' : no_char lbrack msg = true)
      by (unfold msg; now rewrite no_char_app, Hbr).
    rewrite markdown_html_fragments, (split_no_sep newline msg Hnl').
    rewrite (fragments_one_regular msg eq_refl). cbn [join].
    rewrite (regular_fragment_nonblank msg 69%N) by (now left || reflexivity).
    rewrite (format_emphasis_no_star msg Hstar'), (re_sub_links_no_lbrack msg Hbr').
    unfold wrap_paragraph. now rewrite Htag.
Qed.

Lemma request_failure_page_witness :
  markdown_html (lit "Error generating completion: " ++ lit "404 Not Found") =
  Return (lit "<p>" ++ (lit "Error generating completion: " ++ lit "404 Not Found") ++
          lit "</p>").
Proof.
  exact (proj2 (request_failure_page str_of_strings
                  (OpenRouterClient (Some (lit "key")) None) (Json JNull)
                  (lit "hi") (lit "m") (lit "404 Not Found") eq_refl)
           eq_refl eq_refl eq_refl eq_refl).
Defined.

(** X9.  Every missing key on the way to the content has a default: when
    the decoded body has no ["choices"], or its first choice no
    ["message"], or that message no ["content"], the completion is the
    text [No response], converted to a paragraph. *)
Theorem missing_content_default
    (str_of : json -> str) (c : client) (models_reply : response)
    (prompt model_id : str) (body : json) :
  demo_mode c = false -> lacks_content body = true ->
  generate_completion str_of c models_reply (Json body) prompt model_id =
  Done {| raw_output := lit "No response";
          formatted_output := lit "<p>No response</p>" |}.
Proof.
  intros Hd H. unfold generate_completion. rewrite Hd.
  unfold lacks_content in H.
  destruct body as [| | | |items|fields]; try discriminate.
  cbn [py_get and_then].
  destruct (dict_get (lit "choices") fields) as [choices|]; [|reflexivity].
  destruct choices as [| | | |[|choice rest]|]; try discriminate.
  destruct choice as [| | | | |cf]; try discriminate.
  cbn [py_first py_get and_then].
  destruct (dict_get (lit "message") cf) as [message|]; [|reflexivity].
  destruct message as [| | | | |mf]; try discriminate.
  cbn [py_get and_then].
  destruct (dict_get (lit "content") mf); [discriminate | reflexivity].
Qed.

Lemma missing_content_default_witness :
  generate_completion str_of_strings (OpenRouterClient (Some (lit "key")) None)
    (Json JNull) (Json (JDict [(lit "choices", JList [JDict [(lit "index", JNumber (lit "0"))]])]))
    (lit "hi") (lit "m") =
  Done {| raw_output := lit "No response";
          formatted_output := lit "<p>No response</p>" |}.
Proof.
  exact (missing_content_default str_of_strings
           (OpenRouterClient (Some (lit "key")) None) (Json JNull) (lit "hi") (lit "m")
           (JDict [(lit "choices", JList [JDict [(lit "index", JNumber (lit "0"))]])])
           eq_refl eq_refl).
Defined.

(** X10.  An empty list of choices is not covered by the defaults nor by
    the handler of the request errors: taking its first item raises
    [IndexError], which leaves [generate_completion]. *)
Theorem empty_choices_raise
    (str_of : json -> str) (c : client) (models_reply : response)
    (prompt model_id : str) (fields : list (str * json)) :
  demo_mode c = false ->
  dict_get (lit "choices") fields = Some (JList []) ->
  generate_completion str_of c models_reply (Json (JDict fields)) prompt model_id =
  Uncaught PyIndexError.
Proof.
  intros Hd H. unfold generate_completion. rewrite Hd.
  cbn [py_get and_then]. now rewrite H.
Qed.

Lemma empty_choices_raise_witness :
  generate_completion str_of_strings (OpenRouterClient (Some (lit "key")) None)
    (Json JNull)
    (Json (JDict [(lit "id", JStr (lit "gen-1")); (lit "choices", JList [])]))
    (lit "hi") (lit "m") =
  Uncaught PyIndexError.
Proof.
  exact (empty_choices_raise str_of_strings
           (OpenRouterClient (Some (lit "key")) None) (Json JNull) (lit "hi") (lit "m")
           [(lit "id", JStr (lit "gen-1")); (lit "choices", JList [])]
           eq_refl eq_refl).
Defined.

Lemma generate_completion_content
    (str_of : json -> str) (c : client) (models_reply : response)
    (prompt model_id : str) (body content : json) :
  demo_mode c = false -> first_content body = Some content ->
  generate_completion str_of c models_reply (Json body) prompt model_id =
  formatted_result content.
Proof.
  intros Hd H. unfold generate_completion. rewrite Hd.
  unfold first_content in H.
  destruct body as [| | | |items|fields]; try discriminate.
  cbn [py_get and_then].
  destruct (dict_get (lit "choices") fields) as [choices|]; [|discriminate].
  destruct choices as [| | | |[|choice rest]|]; try discriminate.
  destruct choice as [| | | | |cf]; try discriminate.
  cbn [py_first py_get and_then].
  destruct (dict_get (lit "message") cf) as [message|]; [|discriminate].
  destruct message as [| | | | |mf]; try discriminate.
  cbn [py_get and_then]. now rewrite H.
Qed.

(** X11.  A content that is not a string (a null content, as a provider
    sends with a tool call, or a list of parts) is handed to the
    converter as it is: the converter calls [split] on it and the
    [AttributeError] leaves [generate_completion]. *)
Theorem non_string_content_raises
    (str_of : json -> str) (c : client) (models_reply : response)
    (prompt model_id : str) (body content : json) :
  demo_mode c = false -> first_content body = Some content ->
  is_string content = false ->
  generate_completion str_of c models_reply (Json body) prompt model_id =
  Uncaught PyAttributeError.
Proof.
  intros Hd H Hs.
  rewrite (generate_completion_content str_of c models_reply prompt model_id
             body content Hd H).
  destruct content; try reflexivity. discriminate.
Qed.

Lemma non_string_content_raises_witness :
  generate_completion str_of_strings (OpenRouterClient (Some (lit "key")) None)
    (Json JNull)
    (Json (JDict [(lit "choices",
                   JList [JDict [(lit "message",
                                  JDict [(lit "role", JStr (lit "assistant"));
                                         (lit "content", JNull)])]])]))
    (lit "hi") (lit "m") =
  Uncaught PyAttributeError.
Proof.
  exact (non_string_content_raises str_of_strings
           (OpenRouterClient (Some (lit "key")) None) (Json JNull) (lit "hi") (lit "m")
           (JDict [(lit "choices",
                    JList [JDict [(lit "message",
                                   JDict [(lit "role", JStr (lit "assistant"));
                                          (lit "content", JNull)])]])])
           JNull eq_refl eq_refl eq_refl).
Defined.

(** X12.  A string content is returned as [raw_output] with its
    conversion as [formatted_output], and nothing is raised, whatever the
    string; the prompt and the model id do not enter the result. *)
Theorem string_content_converted
    (str_of : json -> str) (c : client) (models_reply : response)
    (prompt model_id : str) (body : json) (content : str) :
  demo_mode c = false -> first_content body = Some (JStr content) ->
  generate_completion str_of c models_reply (Json body) prompt model_id =
  Done {| raw_output := content;
          formatted_output := join [newline] (fragments (split newline content)) |} /\
  markdown_html content =
  Return (join [newline] (fragments (split newline content))).
Proof.
  intros Hd H. split.
  - rewrite (generate_completion_content str_of c models_reply prompt model_id
               body (JStr content) Hd H).
    apply formatted_result_string.
  - apply markdown_html_fragments.
Qed.

Lemma string_content_converted_witness :
  generate_completion str_of_strings (OpenRouterClient (Some (lit "key")) None)
    (Json JNull)
    (Json (JDict [(lit "choices",
                   JList [JDict [(lit "message",
                                  JDict [(lit "content", JStr (lit "# Hi"))])]])]))
    (lit "hi") (lit "m") =
  Done {| raw_output := lit "# Hi"; formatted_output := lit "<h1>Hi</h1>" |}.
Proof.
  exact (proj1 (string_content_converted str_of_strings
                  (OpenRouterClient (Some (lit "key")) None) (Json JNull)
                  (lit "hi") (lit "m")
                  (JDict [(lit "choices",
                           JList [JDict [(lit "message",
                                          JDict [(lit "content", JStr (lit "# Hi"))])]])])
                  (lit "# Hi") eq_refl eq_refl)).
Defined.

(** ** The list of the models *)

Lemma model_choice_well_formed (str_of : json -> str) (model : json) :
  well_formed_model model = true ->
  exists id : json,
    model_id model = Some id /\
    model_choice str_of model = Done (id, model_label str_of model).
Proof.
  unfold well_formed_model, model_choice, model_id, model_label.
  destruct model as [| | | | |fields]; try discriminate.
  cbn [py_item py_get and_then].
  destruct (dict_get (lit "id") fields) as [id|]; [|discriminate].
  destruct (dict_get (lit "name") fields) as [name|]; [|discriminate].
  intros _. exists id. cbn [and_then]. split; reflexivity.
Qed.

Lemma model_choices_well_formed (str_of : json -> str) (models : list json) :
  List.forallb well_formed_model models = true ->
  exists choices : list (json * str),
    model_choices str_of models = Done choices /\
    List.map (fun choice => Some (fst choice)) choices = List.map model_id models /\
    List.map snd choices = List.map (model_label str_of) models.
Proof.
  induction models as [|model models IH]; intros H.
  - exists []. repeat split.
  - cbn [forallb] in H. apply andb_true_iff in H as [Hm Hms].
    destruct (model_choice_well_formed str_of model Hm) as (id & Hid & Hc).
    destruct (IH Hms) as (choices & Hcs & Hids & Hlabels).
    exists ((id, model_label str_of model) :: choices).
    cbn [model_choices]. rewrite Hc. cbn [and_then]. rewrite Hcs. cbn [and_then].
    cbn [map fst snd]. now rewrite Hid, Hids, Hlabels.
Qed.

(** X13.  When the provider answers with a list of objects that all have
    an ["id"] and a ["name"], [get_available_models] returns one choice
    for each of them, in their order, with the id as it came and the
    label made of the name, a dash and the description (or the words
    [No description] when there is none).  A body without ["data"] gives
    the empty list of choices. *)
Theorem models_listed_in_order
    (str_of : json -> str) (c : client) (fields : list (str * json)) :
  demo_mode c = false ->
  (forall models : list json,
      dict_get (lit "data") fields = Some (JList models) ->
      List.forallb well_formed_model models = true ->
      exists choices : list (json * str),
        get_available_models str_of c (Json (JDict fields)) = Done choices /\
        List.map (fun choice => Some (fst choice)) choices = List.map model_id models /\
        List.map snd choices = List.map (model_label str_of) models) /\
  (dict_get (lit "data") fields = None ->
   get_available_models str_of c (Json (JDict fields)) = Done []).
Proof.
  intros Hd. unfold get_available_models. rewrite Hd. cbn [py_get and_then].
  split.
  - intros models Hdata Hall. rewrite Hdata. cbn [comprehension].
    now apply model_choices_well_formed.
  - intros Hdata. now rewrite Hdata.
Qed.

Lemma models_listed_in_order_witness :
  exists choices : list (json * str),
    get_available_models str_of_strings (OpenRouterClient (Some (lit "key")) None)
      (Json (JDict [(lit "data",
                     JList [JDict [(lit "id", JStr (lit "a/b"));
                                   (lit "name", JStr (lit "B"))];
                            JDict [(lit "name", JStr (lit "C"));
                                   (lit "description", JStr (lit "third"));
                                   (lit "id", JStr (lit "a/c"))]])])) =
    Done choices /\
    List.map (fun choice => Some (fst choice)) choices =
      [Some (JStr (lit "a/b")); Some (JStr (lit "a/c"))] /\
    List.map snd choices = [lit "B - No description"; lit "C - third"].
Proof.
  exact (proj1 (models_listed_in_order str_of_strings
                  (OpenRouterClient (Some (lit "key")) None)
                  [(lit "data",
                    JList [JDict [(lit "id", JStr (lit "a/b"));
                                  (lit "name", JStr (lit "B"))];
                           JDict [(lit "name", JStr (lit "C"));
                                  (lit "description", JStr (lit "third"));
                                  (lit "id", JStr (lit "a/c"))]])]
                  eq_refl)
           [JDict [(lit "id", JStr (lit "a/b")); (lit "name", JStr (lit "B"))];
            JDict [(lit "name", JStr (lit "C"));
                   (lit "description", JStr (lit "third"));
                   (lit "id", JStr (lit "a/c"))]]
           eq_refl eq_refl).
Defined.

Lemma model_choice_lacking (str_of : json -> str) (model : json) :
  lacks_id_or_name model = true ->
  model_choice str_of model = Uncaught PyKeyError.
Proof.
  unfold lacks_id_or_name, model_choice.
  destruct model as [| | | | |fields]; try discriminate.
  cbn [py_item and_then].
  destruct (dict_get (lit "id") fields); [|reflexivity].
  cbn [and_then].
  destruct (dict_get (lit "name") fields); [discriminate | reflexivity].
Qed.

(** X14.  The default list stands for a failed request only.  When the
    provider answers and one object of its list has no ["id"] or no
    ["name"], the objects before it being complete, the [KeyError] leaves
    [get_available_models]: no list is returned, whatever follows.  When
    the request itself fails, the list returned is the one of the demo
    mode, with its eight entries. *)
Theorem incomplete_model_raises
    (str_of : json -> str) (c : client) (fields : list (str * json))
    (good rest : list json) (bad : json) :
  demo_mode c = false ->
  dict_get (lit "data") fields = Some (JList (good ++ bad :: rest)) ->
  List.forallb well_formed_model good = true ->
  lacks_id_or_name bad = true ->
  get_available_models str_of c (Json (JDict fields)) = Uncaught PyKeyError /\
  (forall message : str,
      get_available_models str_of c (RequestException message) = Done default_models) /\
  default_models = demo_models /\ length default_models = 8%nat.
Proof.
  intros Hd Hdata Hgood Hbad. unfold get_available_models. rewrite Hd.
  split; [|repeat split].
  cbn [py_get and_then]. rewrite Hdata. cbn [comprehension].
  clear Hdata. induction good as [|model good IH].
  - cbn [app model_choices]. now rewrite (model_choice_lacking str_of bad Hbad).
  - cbn [forallb] in Hgood. apply andb_true_iff in Hgood as [Hm Hgood].
    destruct (model_choice_well_formed str_of model Hm) as (id & _ & Hc).
    cbn [app model_choices]. rewrite Hc. cbn [and_then].
    now rewrite (IH Hgood).
Qed.

Lemma incomplete_model_raises_witness :
  get_available_models str_of_strings (OpenRouterClient (Some (lit "key")) None)
    (Json (JDict [(lit "data",
                   JList [JDict [(lit "id", JStr (lit "a/b"));
                                 (lit "name", JStr (lit "B"))];
                          JDict [(lit "id", JStr (lit "a/c"))]])])) =
  Uncaught PyKeyError.
Proof.
  exact (proj1 (incomplete_model_raises str_of_strings
                  (OpenRouterClient (Some (lit "key")) None)
                  [(lit "data",
                    JList [JDict [(lit "id", JStr (lit "a/b"));
                                  (lit "name", JStr (lit "B"))];
                           JDict [(lit "id", JStr (lit "a/c"))]])]
                  [JDict [(lit "id", JStr (lit "a/b")); (lit "name", JStr (lit "B"))]]
                  [] (JDict [(lit "id", JStr (lit "a/c"))])
                  eq_refl eq_refl eq_refl eq_refl)).
Defined.

(** ** The key *)

(** X15.  The client that [views.py] builds uses the environment variable
    when it is set and not empty, else the attribute of the settings; it
    is in demo mode exactly when neither gives a key that is not empty,
    and its authorization header carries the key it uses. *)
Theorem client_key_precedence (environ settings : option str) :
  api_key (get_openrouter_client environ settings) = effective_key environ settings /\
  demo_mode (get_openrouter_client environ settings) =
    negb (truthy (effective_key environ settings)) /\
  headers (get_openrouter_client environ settings) =
    [(lit "Authorization", lit "Bearer " ++ effective_key environ settings);
     (lit "Content-Type", lit "application/json")].
Proof.
  unfold get_openrouter_client, OpenRouterClient, effective_key, environ_key.
  destruct environ as [[|c k]|]; cbn [truthy negb api_key demo_mode headers].
  - destruct settings as [[|c k]|]; cbn [truthy]; repeat split.
  - repeat split.
  - destruct settings as [[|c k]|]; cbn [truthy]; repeat split.
Qed.
